(** * Axiom Protocol, OpenClaw agents: a shallow embedding of
    [openclaw/security_guardian_agent.py] and [openclaw/network_booster_agent.py].

    Modelling conventions.
    - Python floats are modelled as exact rationals [Q]; Python ints as
      [nat] (counters) or [Z] (configuration values).
    - A [datetime] is an integer number of microseconds ([Z]);
      [timedelta.total_seconds()] is the rational [d # 1000000].
    - [datetime.utcnow()] is an explicit argument [now] of each operation
      (the clock is read once per call).
    - A Python [dict] is an insertion-ordered association list
      [list (string * V)]: assigning to an existing key keeps its position,
      assigning to a new key appends.  A [set] of strings is a list
      without duplicates, [set.add] appends when absent.
    - Console output ([print]) is not modelled. *)

From Stdlib Require Import String Ascii List Bool ZArith QArith Qminmax Qround Lqa Lia.
From Stdlib Require Import Permutation Sorted.
Import ListNotations.

(* ------------------------------------------------------------------ *)
(** ** Python helpers *)

Module Py.

(** Strict comparison of floats, as a boolean. *)
Definition Qltb (x y : Q) : bool := negb (Qle_bool y x).

(** [float(n)] for a Python int. *)
Definition qnat (n : nat) : Q := inject_Z (Z.of_nat n).

(** [timedelta.total_seconds()] of a difference of microsecond stamps. *)
Definition total_seconds (d : Z) : Q := d # 1000000.

(** [sum(xs)] over floats. *)
Fixpoint qsum (xs : list Q) : Q :=
  match xs with [] => 0 | x :: r => x + qsum r end.

(** Decimal rendering of a non-negative int, as in [f"{n}"]. *)
Fixpoint digits (fuel n : nat) (acc : string) : string :=
  match fuel with
  | O => acc
  | S f =>
      let acc' := String (ascii_of_nat (48 + n mod 10)) acc in
      if Nat.ltb n 10 then acc' else digits f (n / 10) acc'
  end.

Definition str_nat (n : nat) : string := digits (S n) n "".

(** [f"{x:.0f}"]: round half to even, then print. *)
Definition str_0f (x : Q) : string :=
  let fl := Qfloor x in
  let fr := x - inject_Z fl in
  let r := if Qltb fr (1 # 2) then fl
           else if Qltb (1 # 2) fr then (fl + 1)%Z
           else if Z.even fl then fl else (fl + 1)%Z in
  if (r <? 0)%Z then String "-" (str_nat (Z.to_nat (- r)))
  else str_nat (Z.to_nat r).

(** [d.get(k)] on an insertion-ordered dict. *)
Fixpoint lookup {V} (k : string) (d : list (string * V)) : option V :=
  match d with
  | [] => None
  | (k', v) :: r => if String.eqb k k' then Some v else lookup k r
  end.

(** [d[k] = v]: overwrite in place, or append a new key. *)
Fixpoint assign {V} (k : string) (v : V) (d : list (string * V))
  : list (string * V) :=
  match d with
  | [] => [(k, v)]
  | (k', v') :: r =>
      if String.eqb k k' then (k', v) :: r else (k', v') :: assign k v r
  end.

(** In-place mutation of the object stored under an existing key
    ([d[k].field = ...]). *)
Definition modify {V} (k : string) (f : V -> V) (d : list (string * V))
  : list (string * V) :=
  map (fun '(k', v) => if String.eqb k k' then (k', f v) else (k', v)) d.

(** [s.add(x)] on a set of strings. *)
Definition set_add (x : string) (s : list string) : list string :=
  if existsb (String.eqb x) s then s else s ++ [x].

(** [xs[-k:]] for [k >= 0]. *)
Definition last_n {A} (k : nat) (xs : list A) : list A :=
  skipn (length xs - k) xs.

(** [xs[:k]] for an int [k] (a negative [k] drops [-k] items at the end). *)
Definition take_z {A} (k : Z) (xs : list A) : list A :=
  if (0 <=? k)%Z then firstn (Z.to_nat k) xs
  else firstn (length xs - Z.to_nat (- k)) xs.

End Py.

Import Py.

(* ------------------------------------------------------------------ *)
(** ** security_guardian_agent.py *)

Module Guardian.

Inductive ThreatLevel := SAFE | CAUTION | WARNING | CRITICAL | BLOCKED.

Inductive AttackType :=
  SYBIL | DOS | ECLIPSE | SELFISH_MINING | VDF_MANIPULATION | RATE_LIMIT
| UNKNOWN.

Definition AttackType_eqb (a b : AttackType) : bool :=
  match a, b with
  | SYBIL, SYBIL | DOS, DOS | ECLIPSE, ECLIPSE
  | SELFISH_MINING, SELFISH_MINING | VDF_MANIPULATION, VDF_MANIPULATION
  | RATE_LIMIT, RATE_LIMIT | UNKNOWN, UNKNOWN => true
  | _, _ => false
  end.

(** [@dataclass PeerReputation]. *)
Record PeerReputation := mkPeerReputation {
  peer_id : string;
  ip_address : string;
  trust_score : Q;
  successful_blocks : nat;
  failed_validations : nat;
  dos_attempts : nat;
  sybil_connections : nat;
  first_seen : Z;
  last_seen : Z;
  blocked : bool;
  block_reason : string;
  block_until : option Z
}.

(** The constructor call [PeerReputation(peer_id=..., ip_address=...)]
    with the dataclass defaults; both [default_factory=datetime.utcnow]
    fields read the clock. *)
Definition new_PeerReputation (now : Z) (pid ip : string) : PeerReputation :=
  mkPeerReputation pid ip 0.5 0 0 0 0 now now false "" None.

Definition set_trust (t : Q) (r : PeerReputation) : PeerReputation :=
  mkPeerReputation (peer_id r) (ip_address r) t (successful_blocks r)
    (failed_validations r) (dos_attempts r) (sybil_connections r)
    (first_seen r) (last_seen r) (blocked r) (block_reason r) (block_until r).

(** [@dataclass SecurityEvent] (own name space: its fields [timestamp]
    and [peer_id] keep the source's names). *)
Module Event.
Record SecurityEvent := mkSecurityEvent {
  timestamp : Z;
  event_type : AttackType;
  peer_id : string;
  severity : ThreatLevel;
  description : string;
  action_taken : string
}.
End Event.
Import Event (SecurityEvent, mkSecurityEvent).

(** The attributes of a [SecurityGuardian] instance; the three
    configuration values are those read in [__init__]. *)
Record SecurityGuardian := mkSecurityGuardian {
  dos_threshold : Z;
  min_trust_score : Q;
  blacklist_duration_minutes : Z;
  peer_reputation : list (string * PeerReputation);
  blocked_ips : list string;
  security_events : list SecurityEvent;
  connection_attempts : list (string * list Z)
}.

(** [SecurityGuardian(config)]: empty registry, set, log and attempt map. *)
Definition new_SecurityGuardian (thr : Z) (min_trust : Q) (dur : Z)
  : SecurityGuardian :=
  mkSecurityGuardian thr min_trust dur [] [] [] [].

Definition set_peers g ps :=
  mkSecurityGuardian (dos_threshold g) (min_trust_score g)
    (blacklist_duration_minutes g) ps (blocked_ips g) (security_events g)
    (connection_attempts g).
Definition set_blocked g bs :=
  mkSecurityGuardian (dos_threshold g) (min_trust_score g)
    (blacklist_duration_minutes g) (peer_reputation g) bs (security_events g)
    (connection_attempts g).
Definition set_events g es :=
  mkSecurityGuardian (dos_threshold g) (min_trust_score g)
    (blacklist_duration_minutes g) (peer_reputation g) (blocked_ips g) es
    (connection_attempts g).
Definition set_attempts g cs :=
  mkSecurityGuardian (dos_threshold g) (min_trust_score g)
    (blacklist_duration_minutes g) (peer_reputation g) (blocked_ips g)
    (security_events g) cs.

(** [block_ip(ip, reason, duration)]: adds to the set; [reason] and
    [duration] are only printed. *)
Definition block_ip (ip : string) (reason : string) (duration_minutes : Z)
  (g : SecurityGuardian) : SecurityGuardian :=
  set_blocked g (set_add ip (blocked_ips g)).

(** One iteration of the loop of [detect_dos_attacks] (over a snapshot
    [list(self.connection_attempts.items())]). *)
Definition dos_step (now : Z) (g : SecurityGuardian) (e : string * list Z)
  : SecurityGuardian :=
  let '(ip, timestamps) := e in
  let recent_attempts :=
    filter (fun ts => Qltb (total_seconds (now - ts)) 60) timestamps in
  let g := set_attempts g (assign ip recent_attempts (connection_attempts g)) in
  if (dos_threshold g <? Z.of_nat (length recent_attempts))%Z then
    let threat := mkSecurityEvent now DOS ("ip_" ++ ip)%string CRITICAL
      ("DoS attempt: " ++ str_nat (length recent_attempts)
        ++ " requests in 60s")%string "BLOCKED" in
    let g := block_ip ip "DoS attack" (blacklist_duration_minutes g) g in
    set_events g (security_events g ++ [threat])
  else g.

Definition detect_dos_attacks (now : Z) (g : SecurityGuardian)
  : SecurityGuardian :=
  fold_left (dos_step now) (connection_attempts g) g.

(** [ip_to_peers[ip].add(peer_id)] on a [defaultdict(set)]. *)
Definition group_add (ip pid : string) (groups : list (string * list string))
  : list (string * list string) :=
  let peers := match lookup ip groups with Some s => s | None => [] end in
  assign ip (set_add pid peers) groups.

(** The grouping loop of [detect_sybil_attacks]. *)
Definition ip_to_peers (g : SecurityGuardian) : list (string * list string) :=
  fold_left (fun acc '(pid, reputation) => group_add (ip_address reputation) pid acc)
    (peer_reputation g) [].

(** [self.peer_reputation[p].trust_score < self.min_trust_score]; every
    [p] of a group is a key of the registry, so the [None] case (a
    [KeyError] in Python) is never reached. *)
Definition is_suspicious (g : SecurityGuardian) (p : string) : bool :=
  match lookup p (peer_reputation g) with
  | Some r => Qltb (trust_score r) (min_trust_score g)
  | None => false
  end.

(** [self.peer_reputation[peer_id].trust_score *= factor]. *)
Definition scale_trust (factor : Q) (pid : string) (g : SecurityGuardian)
  : SecurityGuardian :=
  set_peers g (modify pid (fun r => set_trust (trust_score r * factor) r)
                 (peer_reputation g)).

(** One iteration of the second loop of [detect_sybil_attacks]. *)
Definition sybil_step (now : Z) (g : SecurityGuardian) (e : string * list string)
  : SecurityGuardian :=
  let '(ip, peers) := e in
  let suspicious_peers := filter (is_suspicious g) peers in
  if Nat.leb 5 (length suspicious_peers) then
    let threat := mkSecurityEvent now SYBIL ip WARNING
      ("Sybil attack: " ++ str_nat (length suspicious_peers)
        ++ " suspicious peers from " ++ ip)%string "MONITORED" in
    let g := set_events g (security_events g ++ [threat]) in
    fold_left (fun g pid => scale_trust 0.5 pid g) suspicious_peers g
  else g.

Definition detect_sybil_attacks (now : Z) (g : SecurityGuardian)
  : SecurityGuardian :=
  fold_left (sybil_step now) (ip_to_peers g) g.

(** The loop of [detect_eclipse_attacks]: each entry is mutated in place
    and an event is appended, in dict order. *)
Fixpoint eclipse_scan (now : Z) (ps : list (string * PeerReputation))
  : list (string * PeerReputation) * list SecurityEvent :=
  match ps with
  | [] => ([], [])
  | (pid, reputation) :: rest =>
      let '(ps', es) := eclipse_scan now rest in
      if Nat.ltb 1000 (successful_blocks reputation)
         && Nat.eqb (failed_validations reputation) 0 then
        let threat := mkSecurityEvent now ECLIPSE pid CAUTION
          "Suspicious: Peer showing abnormal validation patterns" "MONITORED" in
        ((pid, set_trust (trust_score reputation * 0.8) reputation) :: ps',
         threat :: es)
      else ((pid, reputation) :: ps', es)
  end.

Definition detect_eclipse_attacks (now : Z) (g : SecurityGuardian)
  : SecurityGuardian :=
  let '(ps, es) := eclipse_scan now (peer_reputation g) in
  set_events (set_peers g ps) (security_events g ++ es).

(** The loop of [detect_vdf_manipulation]. *)
Fixpoint vdf_scan (now : Z) (ps : list (string * PeerReputation))
  : list (string * PeerReputation) * list SecurityEvent :=
  match ps with
  | [] => ([], [])
  | (pid, reputation) :: rest =>
      let '(ps', es) := vdf_scan now rest in
      if Nat.ltb 10 (successful_blocks reputation) then
        let avg_time_per_block :=
          total_seconds (now - first_seen reputation)
          / qnat (successful_blocks reputation) in
        if Qltb avg_time_per_block 1700 then
          let threat := mkSecurityEvent now VDF_MANIPULATION pid WARNING
            ("Block time too fast: " ++ str_0f avg_time_per_block
              ++ "s (expected 1800s)")%string "INVESTIGATED" in
          ((pid, set_trust (trust_score reputation * 0.6) reputation) :: ps',
           threat :: es)
        else ((pid, reputation) :: ps', es)
      else ((pid, reputation) :: ps', es)
  end.

Definition detect_vdf_manipulation (now : Z) (g : SecurityGuardian)
  : SecurityGuardian :=
  let '(ps, es) := vdf_scan now (peer_reputation g) in
  set_events (set_peers g ps) (security_events g ++ es).

(** The body of the loop of [update_peer_reputation] for one peer. *)
Definition reputation_update (now : Z) (reputation : PeerReputation)
  : PeerReputation :=
  if blocked reputation then
    match block_until reputation with
    | Some bu =>
        if (bu <? now)%Z then
          mkPeerReputation (peer_id reputation) (ip_address reputation) 0.3
            (successful_blocks reputation) (failed_validations reputation)
            (dos_attempts reputation) (sybil_connections reputation)
            (first_seen reputation) (last_seen reputation) false "" None
        else reputation
    | None => reputation
    end
  else
    let total_interactions :=
      (successful_blocks reputation + failed_validations reputation)%nat in
    let t :=
      if Nat.ltb 0 total_interactions then
        let success_rate :=
          qnat (successful_blocks reputation) / qnat total_interactions in
        let t0 := success_rate * 0.7
                  + Qmin (qnat (dos_attempts reputation) / 10) 0.3 * (-0.3) in
        Qmax 0 (Qmin 1 t0)
      else trust_score reputation in
    let idle_hours := total_seconds (now - last_seen reputation) / 3600 in
    if Qltb 24 idle_hours then set_trust (t * 0.9) reputation
    else set_trust t reputation.

Definition update_peer_reputation (now : Z) (g : SecurityGuardian)
  : SecurityGuardian :=
  set_peers g (map (fun '(pid, r) => (pid, reputation_update now r))
                 (peer_reputation g)).

(** [cleanup_expired_blocks]: keeps the events younger than 30 days. *)
Definition cleanup_expired_blocks (now : Z) (g : SecurityGuardian)
  : SecurityGuardian :=
  set_events g (filter (fun e => (now - Event.timestamp e <? 30 * 86400 * 1000000)%Z)
                  (security_events g)).

Definition register_peer (now : Z) (pid ip : string) (g : SecurityGuardian)
  : SecurityGuardian :=
  match lookup pid (peer_reputation g) with
  | Some _ => g
  | None => set_peers g (assign pid (new_PeerReputation now pid ip)
                           (peer_reputation g))
  end.

Definition record_successful_block (now : Z) (pid : string) (g : SecurityGuardian)
  : SecurityGuardian :=
  match lookup pid (peer_reputation g) with
  | Some _ =>
      set_peers g (modify pid (fun r =>
        mkPeerReputation (peer_id r) (ip_address r) (trust_score r)
          (S (successful_blocks r)) (failed_validations r) (dos_attempts r)
          (sybil_connections r) (first_seen r) now (blocked r)
          (block_reason r) (block_until r)) (peer_reputation g))
  | None => g
  end.

Definition record_failed_validation (pid : string) (g : SecurityGuardian)
  : SecurityGuardian :=
  match lookup pid (peer_reputation g) with
  | Some _ =>
      set_peers g (modify pid (fun r =>
        mkPeerReputation (peer_id r) (ip_address r) (trust_score r * 0.8)
          (successful_blocks r) (S (failed_validations r)) (dos_attempts r)
          (sybil_connections r) (first_seen r) (last_seen r) (blocked r)
          (block_reason r) (block_until r)) (peer_reputation g))
  | None => g
  end.

Definition is_peer_trusted (pid : string) (g : SecurityGuardian) : bool :=
  match lookup pid (peer_reputation g) with
  | None => false
  | Some r => negb (blocked r) && Qle_bool (min_trust_score g) (trust_score r)
  end.

(** [self.connection_attempts[ip].append(now)] on a [defaultdict(list)]. *)
Definition record_connection_attempt (now : Z) (ip : string) (g : SecurityGuardian)
  : SecurityGuardian :=
  let ts := match lookup ip (connection_attempts g) with Some l => l | None => [] end in
  set_attempts g (assign ip (ts ++ [now]) (connection_attempts g)).

(** One iteration of [monitor_network] (status logging and sleeping
    omitted). *)
Definition security_cycle (now : Z) (g : SecurityGuardian) : SecurityGuardian :=
  cleanup_expired_blocks now
    (update_peer_reputation now
      (detect_vdf_manipulation now
        (detect_eclipse_attacks now
          (detect_sybil_attacks now
            (detect_dos_attacks now g))))).

(** The operations a [SecurityGuardian] receives. *)
Inductive op :=
| OpRegister (now : Z) (pid ip : string)
| OpSuccess (now : Z) (pid : string)
| OpFailure (pid : string)
| OpAttempt (now : Z) (ip : string)
| OpBlockIp (ip reason : string) (minutes : Z)
| OpDos (now : Z)
| OpSybil (now : Z)
| OpEclipse (now : Z)
| OpVdf (now : Z)
| OpReputation (now : Z)
| OpCleanup (now : Z)
| OpCycle (now : Z).

Definition apply_op (g : SecurityGuardian) (o : op) : SecurityGuardian :=
  match o with
  | OpRegister now pid ip => register_peer now pid ip g
  | OpSuccess now pid => record_successful_block now pid g
  | OpFailure pid => record_failed_validation pid g
  | OpAttempt now ip => record_connection_attempt now ip g
  | OpBlockIp ip reason minutes => block_ip ip reason minutes g
  | OpDos now => detect_dos_attacks now g
  | OpSybil now => detect_sybil_attacks now g
  | OpEclipse now => detect_eclipse_attacks now g
  | OpVdf now => detect_vdf_manipulation now g
  | OpReputation now => update_peer_reputation now g
  | OpCleanup now => cleanup_expired_blocks now g
  | OpCycle now => security_cycle now g
  end.

Definition run_ops (g : SecurityGuardian) (os : list op) : SecurityGuardian :=
  fold_left apply_op os g.

(** The five figures printed by [log_security_status]; the field
    [blocked_ips_count] is the local [blocked_ips] of the source. *)
Record SecurityStatus := mkSecurityStatus {
  trusted_peers : nat;
  blocked_peers : nat;
  blocked_ips_count : nat;
  recent_threats : nat;
  total_events : nat
}.

Definition log_security_status (now : Z) (g : SecurityGuardian) : SecurityStatus :=
  mkSecurityStatus
    (length (filter (fun e => negb (blocked (snd e))) (peer_reputation g)))
    (length (filter (fun e => blocked (snd e)) (peer_reputation g)))
    (length (blocked_ips g))
    (length (filter (fun e => Qltb (total_seconds (now - Event.timestamp e)) 300)
               (security_events g)))
    (length (security_events g)).

End Guardian.

(* ------------------------------------------------------------------ *)
(** ** network_booster_agent.py *)

Module Booster.

(** [@dataclass NetworkMetrics]. *)
Record NetworkMetrics := mkNetworkMetrics {
  timestamp : Z;
  connected_peers : nat;
  total_bandwidth_mbps : Q;
  avg_latency_ms : Q;
  blocks_synced_per_minute : Q;
  failed_connections : nat;
  successful_connections : nat;
  memory_usage_percent : Q;
  disk_usage_percent : Q
}.

(** The attributes of a [NetworkBooster] instance; the three
    configuration values are those read in [__init__]. *)
Record NetworkBooster := mkNetworkBooster {
  max_peers : Z;
  max_outbound : Z;
  max_inbound : Z;
  metrics_history : list NetworkMetrics;
  peer_latencies : list (string * Q);
  throughput_stats : list (string * Q);
  congestion_detected : bool
}.

Definition new_NetworkBooster (mp mo mi : Z) : NetworkBooster :=
  mkNetworkBooster mp mo mi [] [] [] false.

Definition set_history b h :=
  mkNetworkBooster (max_peers b) (max_outbound b) (max_inbound b) h
    (peer_latencies b) (throughput_stats b) (congestion_detected b).
Definition set_latencies b l :=
  mkNetworkBooster (max_peers b) (max_outbound b) (max_inbound b)
    (metrics_history b) l (throughput_stats b) (congestion_detected b).
Definition set_congestion b c :=
  mkNetworkBooster (max_peers b) (max_outbound b) (max_inbound b)
    (metrics_history b) (peer_latencies b) (throughput_stats b) c.

Definition record_peer_latency (pid : string) (latency_ms : Q) (b : NetworkBooster) :=
  set_latencies b (assign pid latency_ms (peer_latencies b)).


Definition calculate_bandwidth (b : NetworkBooster) : Q :=
  qsum (map snd (throughput_stats b)).

Definition calculate_avg_latency (b : NetworkBooster) : Q :=
  match peer_latencies b with
  | [] => 0
  | l => qsum (map snd l) / qnat (length l)
  end.

Definition calculate_avg_throughput (b : NetworkBooster) : Q :=
  match throughput_stats b with
  | [] => 0
  | t => qsum (map snd t) / qnat (length t)
  end.

Definition calculate_block_rate (b : NetworkBooster) : Q :=
  qnat (length (peer_latencies b)) * 0.5.
Definition count_failed_connections (b : NetworkBooster) : nat := 0.
Definition count_successful_connections (b : NetworkBooster) : nat :=
  length (peer_latencies b).
Definition get_memory_usage (b : NetworkBooster) : Q := 35.0.
Definition get_disk_usage (b : NetworkBooster) : Q := 28.0.

(** [monitor_network_health]: append a snapshot, keep the last 100. *)
Definition monitor_network_health (now : Z) (b : NetworkBooster) : NetworkBooster :=
  let metrics := mkNetworkMetrics now (length (peer_latencies b))
    (calculate_bandwidth b) (calculate_avg_latency b) (calculate_block_rate b)
    (count_failed_connections b) (count_successful_connections b)
    (get_memory_usage b) (get_disk_usage b) in
  let h := metrics_history b ++ [metrics] in
  let h := if Nat.ltb 100 (length h) then last_n 100 h else h in
  set_history b h.

(** [sorted(items, key=lambda x: x[1])]: a stable sort by latency; an
    earlier item is inserted in front of every later item whose latency
    is not strictly smaller. *)
Fixpoint insert_by_latency (x : string * Q) (l : list (string * Q))
  : list (string * Q) :=
  match l with
  | [] => [x]
  | y :: r => if Qltb (snd y) (snd x) then y :: insert_by_latency x r
              else x :: y :: r
  end.

Definition sort_by_latency (l : list (string * Q)) : list (string * Q) :=
  fold_right insert_by_latency [] l.

(** [dict(pairs)]. *)
Definition dict_of_list (l : list (string * Q)) : list (string * Q) :=
  fold_left (fun d '(k, v) => assign k v d) l [].

Definition prune_poor_performers (b : NetworkBooster) : NetworkBooster :=
  if (Z.of_nat (length (peer_latencies b)) <=? max_outbound b)%Z then b
  else
    let sorted_peers := sort_by_latency (peer_latencies b) in
    let keep_peers := dict_of_list (take_z (max_outbound b) sorted_peers) in
    set_latencies b keep_peers.

(** [optimize_peer_connections]; [good_peers] is computed but only
    printed. *)
Definition optimize_peer_connections (b : NetworkBooster) : NetworkBooster :=
  let n := qnat (length (peer_latencies b)) in
  if Qltb n (inject_Z (max_peers b) * 0.8) then b
  else
    let sorted_peers := sort_by_latency (peer_latencies b) in
    let good_peers := take_z (max_outbound b)
      (map fst (filter (fun '(_, latency) => Qltb latency 100) sorted_peers)) in
    let peer_count := n in
    if Qltb (inject_Z (max_peers b) * 0.9) peer_count
    then prune_poor_performers b else b.

Definition detect_congestion (b : NetworkBooster) : NetworkBooster :=
  if Nat.ltb (length (metrics_history b)) 5 then b
  else
    let recent_metrics := last_n 5 (metrics_history b) in
    let avg_latency := qsum (map avg_latency_ms recent_metrics)
                       / qnat (length recent_metrics) in
    if Qltb 500 avg_latency then set_congestion b true
    else if Qltb avg_latency 200 then set_congestion b false
    else b.

(** The dict returned by [optimize_block_propagation]. *)
Record Propagation := mkPropagation {
  compression : bool;
  batch_size : Z;
  priority : string;
  backpressure : bool
}.

Definition optimize_block_propagation (b : NetworkBooster) (block_size_kb : Z)
  : Propagation :=
  if congestion_detected b then mkPropagation true 10 "critical_only" true
  else mkPropagation false 100 "all" false.

(** One iteration of [optimize_network]; [optimize_bandwidth] and
    [log_network_metrics] only print, so they leave the state as it is. *)
Definition booster_cycle (now : Z) (b : NetworkBooster) : NetworkBooster :=
  detect_congestion (optimize_peer_connections (monitor_network_health now b)).

End Booster.

(* ------------------------------------------------------------------ *)
(** ** Concrete inputs used by the statements below *)

Module Inputs.
Import Guardian.

(** A registered, non-blocked, active peer with one success, no failure
    and five recorded DoS attempts. *)
Definition peer_dos5 : PeerReputation :=
  mkPeerReputation "p" "10.0.0.1" 0.5 1 0 5 0 0 0 false "" None.

Definition guardian_dos5 : SecurityGuardian :=
  mkSecurityGuardian 100 0.6 60 [("p"%string, peer_dos5)] [] [] [].

(** The spec's reputation formula, with [min(dos_attempts/10, 1.0)]. *)
Definition spec_trust (r : PeerReputation) : Q :=
  let n := (successful_blocks r + failed_validations r)%nat in
  Qmax 0 (Qmin 1 (0.7 * (qnat (successful_blocks r) / qnat n)
                  - 0.3 * Qmin (qnat (dos_attempts r) / 10) 1)).

(** The recompute as the code performs it, written in the spec's shape:
    the DoS term is capped at [0.3], and the idle decay follows. *)
Definition code_trust (now : Z) (r : PeerReputation) : Q :=
  let n := (successful_blocks r + failed_validations r)%nat in
  let t := Qmax 0 (Qmin 1 (0.7 * (qnat (successful_blocks r) / qnat n)
                           - 0.3 * Qmin (qnat (dos_attempts r) / 10) 0.3)) in
  if Qltb 24 (total_seconds (now - last_seen r) / 3600) then t * 0.9 else t.

(** Every stored trust score lies in [0, 1]. *)
Definition peers_ok (ps : list (string * PeerReputation)) : Prop :=
  forall k r, In (k, r) ps -> 0 <= trust_score r <= 1.

Definition trust_ok (g : SecurityGuardian) : Prop := peers_ok (peer_reputation g).

(** The mean [avg_latency_ms] of the latest five snapshots. *)
Definition latest5_mean (h : list Booster.NetworkMetrics) : Q :=
  qsum (map Booster.avg_latency_ms (last_n 5 h)) / 5.

(** A snapshot with the given latency, and a booster that has seen
    five of them. *)
Definition snapshot (lat : Q) : Booster.NetworkMetrics :=
  Booster.mkNetworkMetrics 0 0 0 lat 0 0 0 35.0 28.0.

Definition booster_after (lat : Q) (congested : bool) : Booster.NetworkBooster :=
  Booster.mkNetworkBooster 50 25 25 (repeat (snapshot lat) 5) [] [] congested.

(** The attempts [detect_dos_attacks] keeps for one IP, whether they
    exceed the threshold, and the events it appends for one entry of
    [connection_attempts]. *)
Definition dos_recent (now : Z) (timestamps : list Z) : list Z :=
  filter (fun ts => Qltb (total_seconds (now - ts)) 60) timestamps.

Definition dos_big (now thr : Z) (timestamps : list Z) : bool :=
  (thr <? Z.of_nat (length (dos_recent now timestamps)))%Z.

Definition dos_events (now thr : Z) (e : string * list Z) : list Event.SecurityEvent :=
  let '(ip, timestamps) := e in
  if dos_big now thr timestamps then
    [Event.mkSecurityEvent now DOS ("ip_" ++ ip)%string CRITICAL
       ("DoS attempt: " ++ str_nat (length (dos_recent now timestamps))
         ++ " requests in 60s")%string "BLOCKED"]
  else [].

(** The spec's window: an attempt at most 60 seconds old. *)
Definition in_window (now t : Z) : bool :=
  (0 <=? now - t)%Z && (now - t <? 60 * 1000000)%Z.

(** A DoS event about [ip]. *)
Definition dos_event_for (ip : string) (e : Event.SecurityEvent) : bool :=
  AttackType_eqb (Event.event_type e) DOS
  && String.eqb (Event.peer_id e) ("ip_" ++ ip).

(** 101 attempts from [1.2.3.4] at time 0, threshold 100, 60 minutes. *)
Definition guardian_flood : SecurityGuardian :=
  mkSecurityGuardian 100 0.6 60 [] [] []
    [("1.2.3.4"%string, repeat 0%Z 101)].

(** The identifiers of the registered peers with address [ip], in
    registry order. *)
Definition keys_with_ip (ps : list (string * PeerReputation)) (ip : string)
  : list string :=
  map fst (filter (fun e => String.eqb (ip_address (snd e)) ip) ps).

(** [groups] is the [ip_to_peers] grouping of [ps]. *)
Definition groups_of (ps : list (string * PeerReputation))
  (groups : list (string * list string)) : Prop :=
  NoDup (map fst groups)
  /\ (forall ip pids, In (ip, pids) groups -> pids = keys_with_ip ps ip)
  /\ (forall ip, In ip (map fst groups) <-> exists e, In e ps /\ ip_address (snd e) = ip).

(** The registered peers with address [ip] and trust below the minimum. *)
Definition suspicious_at (g : SecurityGuardian) (ip : string)
  : list (string * PeerReputation) :=
  filter (fun e => String.eqb (ip_address (snd e)) ip
                   && Qltb (trust_score (snd e)) (min_trust_score g))
    (peer_reputation g).

(** A Sybil event about [ip]. *)
Definition sybil_event_for (ip : string) (e : Event.SecurityEvent) : bool :=
  AttackType_eqb (Event.event_type e) SYBIL && String.eqb (Event.peer_id e) ip.

(** The events the Sybil pass appends for one group of [ip_to_peers]. *)
Definition sybil_events (now : Z) (g : SecurityGuardian) (e : string * list string)
  : list Event.SecurityEvent :=
  let '(ip, _) := e in
  let n := length (suspicious_at g ip) in
  if Nat.leb 5 n then
    [Event.mkSecurityEvent now SYBIL ip WARNING
       ("Sybil attack: " ++ str_nat n ++ " suspicious peers from " ++ ip)%string
       "MONITORED"]
  else [].

(** A peer of [g] after a full Sybil pass. *)
Definition sybil_final (g : SecurityGuardian) (r : PeerReputation) : PeerReputation :=
  if Qltb (trust_score r) (min_trust_score g)
     && Nat.leb 5 (length (suspicious_at g (ip_address r)))
  then set_trust (trust_score r * 0.5) r else r.

(** The registry while the Sybil pass runs: the peers whose address is in
    [D] (the groups already processed) have their final record, the
    others are untouched. *)
Definition sybil_partial (g : SecurityGuardian) (D : list string)
  : list (string * PeerReputation) :=
  map (fun '(k, r) => (k, if existsb (String.eqb (ip_address r)) D
                          then sybil_final g r else r))
    (peer_reputation g).

(** Five peers registered from one address, at the default trust 0.5,
    below the default minimum 0.6, and one peer from another address. *)
Definition guardian_sybil5 : SecurityGuardian :=
  fold_left (fun g '(pid, ip) => register_peer 0 pid ip g)
    [("p1", "10.0.0.1"); ("p2", "10.0.0.1"); ("p3", "10.0.0.1");
     ("p4", "10.0.0.1"); ("p5", "10.0.0.1"); ("q", "10.0.0.2")]%string
    (new_SecurityGuardian 100 0.6 60).

(** The same with only four peers from [10.0.0.1]. *)
Definition guardian_sybil4 : SecurityGuardian :=
  fold_left (fun g '(pid, ip) => register_peer 0 pid ip g)
    [("p1", "10.0.0.1"); ("p2", "10.0.0.1"); ("p3", "10.0.0.1");
     ("p4", "10.0.0.1"); ("q", "10.0.0.2")]%string
    (new_SecurityGuardian 100 0.6 60).

(** [a] is recorded before [b] in the latency table [l]. *)
Definition before (l : list (string * Q)) (a b : string * Q) : Prop :=
  exists i j, (i < j)%nat /\ nth_error l i = Some a /\ nth_error l j = Some b.

(** [a] ranks ahead of [b]: lower latency, or equal latency and recorded
    earlier. *)
Definition ranks_before (l : list (string * Q)) (a b : string * Q) : Prop :=
  snd a < snd b \/ (snd a == snd b /\ before l a b).

(** Two peers with equal latency, ["b"] recorded before ["a"]; pruning
    applies (2 > 0.9 * 2) and keeps one. *)
Definition booster_tie : Booster.NetworkBooster :=
  Booster.mkNetworkBooster 2 1 1 [] [("b"%string, 10); ("a"%string, 10)] [] false.

(** Thirty peers ["0"] .. ["29"] with distinct latencies 30 .. 1 ms,
    [max_peers = 30], [max_outbound = 25]. *)
Definition booster_30 : Booster.NetworkBooster :=
  Booster.mkNetworkBooster 30 25 25 []
    (map (fun i => (str_nat i, qnat (30 - i))) (seq 0 30)) [] false.

(** How a registry record may evolve: its identity, address, first-seen
    time, DoS and Sybil counters stay, its validation counters only grow,
    and an unblocked peer stays unblocked. *)
Definition peer_stable (r r' : PeerReputation) : Prop :=
  peer_id r' = peer_id r /\ ip_address r' = ip_address r
  /\ first_seen r' = first_seen r
  /\ dos_attempts r' = dos_attempts r /\ sybil_connections r' = sybil_connections r
  /\ (successful_blocks r <= successful_blocks r')%nat
  /\ (failed_validations r <= failed_validations r')%nat
  /\ (blocked r = false -> blocked r' = false).

Definition stable_entry (e e' : string * PeerReputation) : Prop :=
  fst e' = fst e /\ peer_stable (snd e) (snd e').

(** [ps'] is [ps] with each record evolved in place, followed by
    records evolved from fresh registrations. *)
Definition grows (ps ps' : list (string * PeerReputation)) : Prop :=
  exists ps0 extra, ps' = ps0 ++ extra /\ Forall2 stable_entry ps ps0
    /\ Forall (fun e => exists now ip, peer_stable (new_PeerReputation now (fst e) ip) (snd e))
         extra.

(** The peers [detect_eclipse_attacks] flags: more than 1000 successes
    and no failure. *)
Definition eclipse_flag (r : PeerReputation) : bool :=
  Nat.ltb 1000 (successful_blocks r) && Nat.eqb (failed_validations r) 0.

(** The peers [detect_vdf_manipulation] flags, in integer microseconds:
    more than 10 successes, and fewer than [1700 * successful_blocks]
    seconds since first seen. *)
Definition vdf_flag (now : Z) (r : PeerReputation) : bool :=
  Nat.ltb 10 (successful_blocks r)
  && (now - first_seen r <? 1700 * 1000000 * Z.of_nat (successful_blocks r))%Z.

(** Two registry entries that differ at most in the trust score. *)
Definition trust_only (e e' : string * PeerReputation) : Prop :=
  fst e' = fst e /\ exists t, snd e' = set_trust t (snd e).

(** [x ** k] for a natural [k]. *)
Fixpoint qpow (x : Q) (k : nat) : Q :=
  match k with O => 1 | S k' => x * qpow x k' end.

(** The snapshot [monitor_network_health] appends at time [now]. *)
Definition health_snapshot (now : Z) (b : Booster.NetworkBooster) : Booster.NetworkMetrics :=
  Booster.mkNetworkMetrics now (length (Booster.peer_latencies b))
    (Booster.calculate_bandwidth b) (Booster.calculate_avg_latency b)
    (Booster.calculate_block_rate b) (Booster.count_failed_connections b)
    (Booster.count_successful_connections b) (Booster.get_memory_usage b)
    (Booster.get_disk_usage b).

(** A peer first and last seen at time 0 with 1001 successes and no
    failure: at time 0 both the eclipse and the VDF checks flag it. *)
Definition guardian_eclipse : SecurityGuardian :=
  mkSecurityGuardian 100 0.6 60
    [("e"%string, mkPeerReputation "e" "10.0.0.3" 0.5 1001 0 0 0 0 0 false "" None)]
    [] [] [].

(** A peer registered at time 0 and never heard from again. *)
Definition guardian_idle : SecurityGuardian :=
  register_peer 0 "p" "10.0.0.1" (new_SecurityGuardian 100 0.6 60).

(** Four peers, [max_peers = 3] and a negative [max_outbound = -2]. *)
Definition booster_neg : Booster.NetworkBooster :=
  Booster.mkNetworkBooster 3 (-2) 25 []
    [("a"%string, 10); ("b"%string, 40); ("c"%string, 20); ("d"%string, 30)] [] false.

End Inputs.

(* ================================================================== *)
(** * Proofs *)

(** ** Association-list lemmas *)

Lemma lookup_modify_eq {V} (k : string) (f : V -> V) (d : list (string * V)) :
  lookup k (modify k f d) = option_map f (lookup k d).
Proof.
  induction d as [|[k' v] r IH]; simpl; [reflexivity|].
  destruct (String.eqb k k') eqn:E; simpl; rewrite E; [reflexivity|exact IH].
Qed.

Lemma lookup_modify_neq {V} (k k2 : string) (f : V -> V) (d : list (string * V)) :
  k2 <> k -> lookup k2 (modify k f d) = lookup k2 d.
Proof.
  intros Hne. induction d as [|[k' v] r IH]; simpl; [reflexivity|].
  destruct (String.eqb k k') eqn:E; simpl.
  - apply String.eqb_eq in E; subst k'.
    destruct (String.eqb k2 k) eqn:E2; [apply String.eqb_eq in E2; congruence|].
    exact IH.
  - destruct (String.eqb k2 k'); [reflexivity|exact IH].
Qed.

Lemma lookup_map_vals {V} (k : string) (f : V -> V) (d : list (string * V)) :
  lookup k (map (fun '(k', v) => (k', f v)) d) = option_map f (lookup k d).
Proof.
  induction d as [|[k' v] r IH]; simpl; [reflexivity|].
  destruct (String.eqb k k'); [reflexivity|exact IH].
Qed.

Lemma in_modify {V} (p k : string) (f : V -> V) (v : V) (d : list (string * V)) :
  In (k, v) (modify p f d) -> exists v0, In (k, v0) d /\ (v = v0 \/ v = f v0).
Proof.
  unfold modify. intros H. apply in_map_iff in H as [[k' v'] [E Hin]].
  destruct (String.eqb p k'); inversion E; subst; eauto.
Qed.

Lemma in_assign {V} (p k : string) (w v : V) (d : list (string * V)) :
  In (k, v) (assign p w d) -> In (k, v) d \/ v = w.
Proof.
  induction d as [|[k' v'] r IH]; simpl.
  - intros [E|[]]. inversion E; auto.
  - destruct (String.eqb p k'); simpl.
    + intros [E|H]; [inversion E; auto|auto].
    + intros [E|H]; [auto|]. destruct (IH H); auto.
Qed.

Lemma Qltb_true (x y : Q) : Qltb x y = true <-> x < y.
Proof.
  unfold Qltb. rewrite negb_true_iff. split.
  - intros H. apply Qnot_le_lt. intros Hle. apply Qle_bool_iff in Hle. congruence.
  - intros H. destruct (Qle_bool y x) eqn:E; [|reflexivity].
    apply Qle_bool_iff in E. exfalso. apply (Qlt_not_le _ _ H E).
Qed.

Lemma Qltb_false (x y : Q) : Qltb x y = false <-> y <= x.
Proof.
  unfold Qltb. rewrite negb_false_iff. apply Qle_bool_iff.
Qed.

(** ** C1: the reputation recompute *)

(** C1 (as stated, with [min(dos_attempts/10, 1.0)]) fails: the
    non-blocked, active peer [peer_dos5] (one success, five DoS attempts)
    is recomputed to [0.7 - 0.3 * 0.3 = 0.61], not to
    [0.7 - 0.3 * 0.5 = 0.55]. *)
Lemma reputation_recompute_counterexample :
  ~ (exists r', lookup "p"%string (Guardian.peer_reputation
                              (Guardian.update_peer_reputation 0 Inputs.guardian_dos5))
                = Some r'
             /\ Guardian.trust_score r' == Inputs.spec_trust Inputs.peer_dos5).
Proof.
  intros [r' [H E]]. vm_compute in H. inversion H; subst r'. clear H.
  vm_compute in E. discriminate E.
Qed.

(** C1 (amended): for every registered, non-blocked peer with
    [n = successful_blocks + failed_validations > 0], the recompute sets
    [trust_score] to [0.7 * (successes/n) - 0.3 * min(dos_attempts/10, 0.3)]
    clamped to [0, 1], then multiplied by [0.9] when the peer has been
    idle for more than 24 hours. *)
Theorem reputation_recompute_formula :
  forall (now : Z) (g : Guardian.SecurityGuardian) (pid : string)
         (r : Guardian.PeerReputation),
  lookup pid (Guardian.peer_reputation g) = Some r ->
  Guardian.blocked r = false ->
  (0 < Guardian.successful_blocks r + Guardian.failed_validations r)%nat ->
  exists r', lookup pid (Guardian.peer_reputation
                           (Guardian.update_peer_reputation now g)) = Some r'
          /\ Guardian.trust_score r' == Inputs.code_trust now r.
Proof.
  intros now g pid r Hl Hb Hn.
  unfold Guardian.update_peer_reputation; simpl.
  rewrite (lookup_map_vals pid (Guardian.reputation_update now)), Hl; simpl.
  eexists; split; [reflexivity|].
  unfold Guardian.reputation_update, Inputs.code_trust. rewrite Hb.
  apply Nat.ltb_lt in Hn. rewrite Hn.
  set (a := qnat (Guardian.successful_blocks r)
            / qnat (Guardian.successful_blocks r + Guardian.failed_validations r)).
  set (m := Qmin (qnat (Guardian.dos_attempts r) / 10) 0.3).
  assert (Hring : a * 0.7 + m * -0.3 == 0.7 * a - 0.3 * m) by ring.
  destruct (Qltb 24 _); simpl; rewrite Hring; reflexivity.
Qed.

(** ** C8: recording a failed validation *)

(** C8 (as stated) fails: [record_failed_validation] leaves [last_seen]
    untouched; the peer of [guardian_dos5], last seen at time 0, still has
    [last_seen = 0] after a failure recorded at time 1. *)
Lemma record_failed_validation_counterexample :
  ~ (exists r', lookup "p"%string (Guardian.peer_reputation
                              (Guardian.record_failed_validation "p"%string Inputs.guardian_dos5))
                = Some r'
             /\ Guardian.last_seen r' = 1%Z).
Proof.
  intros [r' [H E]]. vm_compute in H. inversion H; subst r'. discriminate E.
Qed.

(** C8 (amended): for a registered peer, recording a failed validation
    increments [failed_validations] by one and multiplies [trust_score] by
    [0.8], leaving every other field of the record (including [last_seen])
    and every other peer unchanged. *)
Theorem record_failed_validation_effect :
  forall (g : Guardian.SecurityGuardian) (pid : string) (r : Guardian.PeerReputation),
  lookup pid (Guardian.peer_reputation g) = Some r ->
  lookup pid (Guardian.peer_reputation (Guardian.record_failed_validation pid g))
  = Some (Guardian.mkPeerReputation (Guardian.peer_id r) (Guardian.ip_address r)
            (Guardian.trust_score r * 0.8) (Guardian.successful_blocks r)
            (S (Guardian.failed_validations r)) (Guardian.dos_attempts r)
            (Guardian.sybil_connections r) (Guardian.first_seen r)
            (Guardian.last_seen r) (Guardian.blocked r)
            (Guardian.block_reason r) (Guardian.block_until r))
  /\ (forall k, k <> pid ->
        lookup k (Guardian.peer_reputation (Guardian.record_failed_validation pid g))
        = lookup k (Guardian.peer_reputation g)).
Proof.
  intros g pid r Hl. unfold Guardian.record_failed_validation. rewrite Hl; simpl.
  split.
  - rewrite lookup_modify_eq, Hl. reflexivity.
  - intros k Hk. apply lookup_modify_neq. exact Hk.
Qed.

(** ** C5: congestion hysteresis *)

Lemma length_last_n {A} (k : nat) (xs : list A) :
  (k <= length xs)%nat -> length (last_n k xs) = k.
Proof. intros H. unfold last_n. rewrite length_skipn. lia. Qed.

(** C5: with fewer than five snapshots [detect_congestion] does nothing;
    otherwise, with [m] the mean [avg_latency_ms] of the latest five, the
    flag becomes true when [m > 500], false when [m < 200], and the
    state is left as it was when [200 <= m <= 500]. *)
Theorem detect_congestion_hysteresis :
  forall b : Booster.NetworkBooster,
  ((length (Booster.metrics_history b) < 5)%nat -> Booster.detect_congestion b = b) /\
  ((5 <= length (Booster.metrics_history b))%nat ->
     (500 < Inputs.latest5_mean (Booster.metrics_history b) ->
        Booster.congestion_detected (Booster.detect_congestion b) = true) /\
     (Inputs.latest5_mean (Booster.metrics_history b) < 200 ->
        Booster.congestion_detected (Booster.detect_congestion b) = false) /\
     (200 <= Inputs.latest5_mean (Booster.metrics_history b) <= 500 ->
        Booster.detect_congestion b = b)).
Proof.
  intros b. unfold Booster.detect_congestion, Inputs.latest5_mean. split.
  - intros H. apply Nat.ltb_lt in H. rewrite H. reflexivity.
  - intros H. assert (Hn : Nat.ltb (length (Booster.metrics_history b)) 5 = false)
      by (apply Nat.ltb_ge; exact H).
    rewrite Hn, (length_last_n 5 _ H).
    set (m := qsum (map Booster.avg_latency_ms (last_n 5 (Booster.metrics_history b)))
              / qnat 5).
    change (qsum (map Booster.avg_latency_ms (last_n 5 (Booster.metrics_history b))) / 5)
      with m.
    split; [|split].
    + intros Hm. apply Qltb_true in Hm. rewrite Hm. reflexivity.
    + intros Hm. destruct (Qltb 500 m) eqn:E.
      * apply Qltb_true in E. exfalso. lra.
      * apply Qltb_true in Hm. rewrite Hm. reflexivity.
    + intros [H1 H2].
      assert (E1 : Qltb 500 m = false) by (apply Qltb_false; exact H2).
      assert (E2 : Qltb m 200 = false) by (apply Qltb_false; exact H1).
      rewrite E1, E2. reflexivity.
Qed.

(** ** C9: the block-propagation policy *)

(** C9: [optimize_block_propagation] depends on the congestion flag only
    (not on the block size): equal flags give equal policies, namely
    [{compression: true, batch_size: 10, priority: critical_only,
    backpressure: true}] when congested and [{compression: false,
    batch_size: 100, priority: all, backpressure: false}] otherwise. *)
Theorem block_propagation_policy :
  forall (b1 b2 : Booster.NetworkBooster) (s1 s2 : Z),
  Booster.congestion_detected b1 = Booster.congestion_detected b2 ->
  Booster.optimize_block_propagation b1 s1 = Booster.optimize_block_propagation b2 s2
  /\ Booster.optimize_block_propagation b1 s1
     = (if Booster.congestion_detected b1
        then Booster.mkPropagation true 10 "critical_only" true
        else Booster.mkPropagation false 100 "all" false).
Proof.
  intros b1 b2 s1 s2 Hc. unfold Booster.optimize_block_propagation.
  rewrite <- Hc. split; reflexivity.
Qed.

(** ** C10: averages over no samples *)

Lemma last_n_snoc {A} (k : nat) (h : list A) (m : A) :
  (0 < k)%nat -> exists h', last_n k (h ++ [m]) = h' ++ [m].
Proof.
  intros Hk. unfold last_n. rewrite length_app; simpl.
  rewrite skipn_app.
  replace (length h + 1 - k - length h)%nat with 0%nat by lia. simpl. eauto.
Qed.

(** C10: with no latency sample [calculate_avg_latency] is [0.0], with
    no throughput sample [calculate_avg_throughput] is [0.0], and the
    snapshot appended by [monitor_network_health] when no peer is known
    reports zero connected peers and [avg_latency = 0.0]. *)
Theorem averages_without_samples :
  forall (b : Booster.NetworkBooster) (now : Z),
  (Booster.peer_latencies b = [] -> Booster.calculate_avg_latency b = 0) /\
  (Booster.throughput_stats b = [] -> Booster.calculate_avg_throughput b = 0) /\
  (length (Booster.peer_latencies b) = 0%nat ->
     exists h m, Booster.metrics_history (Booster.monitor_network_health now b) = h ++ [m]
              /\ Booster.connected_peers m = 0%nat
              /\ Booster.avg_latency_ms m = 0).
Proof.
  intros b now. unfold Booster.calculate_avg_latency, Booster.calculate_avg_throughput.
  split; [intros H; rewrite H; reflexivity|].
  split; [intros H; rewrite H; reflexivity|].
  intros H. apply length_zero_iff_nil in H.
  unfold Booster.monitor_network_health, Booster.calculate_avg_latency.
  rewrite H. cbv zeta.
  match goal with
  | |- context [Booster.metrics_history b ++ [?m]] => set (mt := m)
  end.
  destruct (Nat.ltb 100 _); simpl.
  - destruct (last_n_snoc 100 (Booster.metrics_history b) mt) as [h' Hh]; [lia|].
    exists h', mt. rewrite Hh. auto.
  - exists (Booster.metrics_history b), mt. auto.
Qed.

(** ** C2: trust scores stay in [0, 1] *)

Section TrustRange.
Import Guardian Inputs.

Lemma scaled_in_range (t c : Q) : 0 <= t <= 1 -> 0 <= c <= 1 -> 0 <= t * c <= 1.
Proof. intros. nra. Qed.

Lemma clamp_in_range (t : Q) : 0 <= Qmax 0 (Qmin 1 t) <= 1.
Proof.
  split; [apply Q.le_max_l|]. apply Q.max_lub; [lra|apply Q.le_min_l].
Qed.

Lemma peers_ok_modify (f : PeerReputation -> PeerReputation) (pid : string) ps :
  (forall r, 0 <= trust_score r <= 1 -> 0 <= trust_score (f r) <= 1) ->
  peers_ok ps -> peers_ok (modify pid f ps).
Proof.
  intros Hf Hok k r Hin. apply in_modify in Hin as [r0 [Hin [-> | ->]]];
    [|apply Hf]; exact (Hok _ _ Hin).
Qed.

Lemma scale_trust_ok (c : Q) (pid : string) g :
  0 <= c <= 1 -> trust_ok g -> trust_ok (scale_trust c pid g).
Proof.
  intros Hc Hok. unfold trust_ok, scale_trust; simpl.
  apply peers_ok_modify; [|exact Hok].
  intros r Hr. simpl. apply scaled_in_range; assumption.
Qed.

Lemma dos_fold_peers now (l : list (string * list Z)) g :
  peer_reputation (fold_left (dos_step now) l g) = peer_reputation g.
Proof.
  revert g. induction l as [|[ip ts] l IH]; intros g; simpl; [reflexivity|].
  rewrite IH. unfold dos_step. destruct (_ <? _)%Z; reflexivity.
Qed.

Lemma sybil_step_ok now g e : trust_ok g -> trust_ok (sybil_step now g e).
Proof.
  destruct e as [ip peers]. unfold sybil_step. intros Hok.
  destruct (Nat.leb 5 _); [|exact Hok].
  match goal with
  | |- trust_ok (fold_left _ ?l ?g0) => assert (H0 : trust_ok g0) by exact Hok;
                                        revert H0; generalize g0; induction l
  end; intros g1 H1; simpl; [exact H1|].
  apply IHl. apply scale_trust_ok; [lra|exact H1].
Qed.

Lemma detect_sybil_ok now g : trust_ok g -> trust_ok (detect_sybil_attacks now g).
Proof.
  unfold detect_sybil_attacks. generalize (ip_to_peers g). intros l.
  revert g. induction l as [|e l IH]; intros g Hok; simpl; [exact Hok|].
  apply IH, sybil_step_ok, Hok.
Qed.

Lemma eclipse_scan_ok now ps : peers_ok ps -> peers_ok (fst (eclipse_scan now ps)).
Proof.
  induction ps as [|[pid r] ps IH]; simpl; intros Hok; [exact Hok|].
  assert (Hr : 0 <= trust_score r <= 1) by (apply (Hok pid); left; reflexivity).
  assert (Hps : peers_ok ps) by (intros k r' Hin; apply (Hok k); right; exact Hin).
  specialize (IH Hps). destruct (eclipse_scan now ps) as [ps' es]. simpl in IH.
  destruct (_ && _); simpl; intros k r' [E|Hin]; try (exact (IH _ _ Hin));
    inversion E; subst; simpl; [apply scaled_in_range; [exact Hr|lra]|exact Hr].
Qed.

Lemma vdf_scan_ok now ps : peers_ok ps -> peers_ok (fst (vdf_scan now ps)).
Proof.
  induction ps as [|[pid r] ps IH]; simpl; intros Hok; [exact Hok|].
  assert (Hr : 0 <= trust_score r <= 1) by (apply (Hok pid); left; reflexivity).
  assert (Hps : peers_ok ps) by (intros k r' Hin; apply (Hok k); right; exact Hin).
  specialize (IH Hps). destruct (vdf_scan now ps) as [ps' es]. simpl in IH.
  destruct (Nat.ltb 10 _); [destruct (Qltb _ 1700)|]; simpl;
    intros k r' [E|Hin]; try (exact (IH _ _ Hin));
    inversion E; subst; simpl; try exact Hr.
  apply scaled_in_range; [exact Hr|lra].
Qed.

Lemma reputation_update_ok now r :
  0 <= trust_score r <= 1 -> 0 <= trust_score (reputation_update now r) <= 1.
Proof.
  intros Hr. unfold reputation_update.
  destruct (blocked r).
  - destruct (block_until r) as [bu|]; [destruct (bu <? now)%Z|]; simpl;
      try exact Hr; lra.
  - set (t := if Nat.ltb 0 _ then _ else _).
    assert (Ht : 0 <= t <= 1)
      by (unfold t; destruct (Nat.ltb 0 _); [apply clamp_in_range|exact Hr]).
    destruct (Qltb 24 _); simpl; [apply scaled_in_range; [exact Ht|lra]|exact Ht].
Qed.

Lemma apply_op_ok g o : trust_ok g -> trust_ok (apply_op g o).
Proof.
  assert (Hdos : forall now g, trust_ok g -> trust_ok (detect_dos_attacks now g))
    by (intros now g0 H; unfold trust_ok, detect_dos_attacks;
        rewrite dos_fold_peers; exact H).
  assert (Hecl : forall now g, trust_ok g -> trust_ok (detect_eclipse_attacks now g)).
  { intros now g0 H. unfold trust_ok, detect_eclipse_attacks.
    pose proof (eclipse_scan_ok now _ H) as H'.
    destruct (eclipse_scan now (peer_reputation g0)); exact H'. }
  assert (Hvdf : forall now g, trust_ok g -> trust_ok (detect_vdf_manipulation now g)).
  { intros now g0 H. unfold trust_ok, detect_vdf_manipulation.
    pose proof (vdf_scan_ok now _ H) as H'.
    destruct (vdf_scan now (peer_reputation g0)); exact H'. }
  assert (Hrep : forall now g, trust_ok g -> trust_ok (update_peer_reputation now g)).
  { intros now g0 H k r Hin. simpl in Hin.
    apply in_map_iff in Hin as [[k0 r0] [E Hin]]. inversion E; subst.
    apply reputation_update_ok; exact (H _ _ Hin). }
  intros Hok. destruct o; simpl.
  - unfold register_peer. destruct (lookup pid _); [exact Hok|].
    intros k r Hin. apply in_assign in Hin as [Hin| ->]; [exact (Hok _ _ Hin)|].
    simpl. lra.
  - unfold record_successful_block. destruct (lookup pid _); [|exact Hok].
    apply peers_ok_modify; [|exact Hok]. intros r Hr; exact Hr.
  - unfold record_failed_validation. destruct (lookup pid _); [|exact Hok].
    apply peers_ok_modify; [|exact Hok].
    intros r Hr. apply scaled_in_range; [exact Hr|lra].
  - exact Hok.
  - exact Hok.
  - apply Hdos, Hok.
  - apply detect_sybil_ok, Hok.
  - apply Hecl, Hok.
  - apply Hvdf, Hok.
  - apply Hrep, Hok.
  - exact Hok.
  - unfold security_cycle.
    apply Hrep, Hvdf, Hecl, detect_sybil_ok, Hdos, Hok.
Qed.

End TrustRange.

(** C2: along every sequence of operations from a fresh
    [SecurityGuardian] (registrations, successes, failures, connection
    attempts, IP blocks, the DoS/Sybil/eclipse/VDF passes, the reputation
    recompute with its idle decay, cleanup and whole security cycles),
    every stored [trust_score] lies in [0, 1]; a newly registered peer
    starts at [0.5]. *)
Theorem trust_score_in_range :
  forall (thr : Z) (min_trust : Q) (dur : Z) (os : list Guardian.op),
  Inputs.trust_ok (Guardian.run_ops (Guardian.new_SecurityGuardian thr min_trust dur) os)
  /\ (forall now pid ip g,
        lookup pid (Guardian.peer_reputation g) = None ->
        option_map Guardian.trust_score
          (lookup pid (Guardian.peer_reputation (Guardian.register_peer now pid ip g)))
        = Some 0.5).
Proof.
  intros thr min_trust dur os. split.
  - unfold Guardian.run_ops.
    assert (H0 : Inputs.trust_ok (Guardian.new_SecurityGuardian thr min_trust dur))
      by (intros k r []).
    revert H0. generalize (Guardian.new_SecurityGuardian thr min_trust dur).
    induction os as [|o os IH]; intros g Hg; simpl; [exact Hg|].
    apply IH, apply_op_ok, Hg.
  - intros now pid ip g Hn. unfold Guardian.register_peer. rewrite Hn. simpl.
    generalize (Guardian.peer_reputation g). intros d.
    induction d as [|[k v] d IH]; simpl.
    + rewrite String.eqb_refl. reflexivity.
    + destruct (String.eqb pid k) eqn:E; simpl; rewrite E; [reflexivity|exact IH].
Qed.

(** ** C3: DoS detection *)

Section Dos.
Import Guardian Inputs.

Lemma set_add_in (x ip : string) (s : list string) :
  In x (set_add ip s) <-> x = ip \/ In x s.
Proof.
  unfold set_add. destruct (existsb (String.eqb ip) s) eqn:E.
  - apply existsb_exists in E as [y [Hy Eq]]. apply String.eqb_eq in Eq; subst y.
    split; [auto|]. intros [->|H]; auto.
  - rewrite in_app_iff. simpl. split; intros [H|H]; intuition.
Qed.

Lemma dos_fold_spec now (L : list (string * list Z)) g :
  dos_threshold (fold_left (dos_step now) L g) = dos_threshold g
  /\ security_events (fold_left (dos_step now) L g)
     = security_events g ++ flat_map (dos_events now (dos_threshold g)) L
  /\ (forall x, In x (blocked_ips (fold_left (dos_step now) L g))
        <-> In x (blocked_ips g)
            \/ exists ts, In (x, ts) L /\ dos_big now (dos_threshold g) ts = true).
Proof.
  revert g. induction L as [|[ip ts] L IH]; intros g; cbn [fold_left flat_map].
  - rewrite app_nil_r. split; [reflexivity|split; [reflexivity|]].
    intros x. split; [auto|]. intros [H|[ts [[] _]]]. exact H.
  - destruct (IH (dos_step now g (ip, ts))) as [Ht [He Hb]]. clear IH.
    assert (Hthr : dos_threshold (dos_step now g (ip, ts)) = dos_threshold g)
      by (unfold dos_step; destruct (_ <? _)%Z; reflexivity).
    rewrite Hthr in He, Hb. rewrite Ht, Hthr, He.
    split; [reflexivity|split].
    + rewrite app_assoc. f_equal.
      unfold dos_step, dos_events, dos_big, dos_recent. simpl.
      destruct (dos_threshold g <? _)%Z; simpl; [reflexivity|symmetry; apply app_nil_r].
    + intros x. rewrite Hb.
      assert (Hstep : In x (blocked_ips (dos_step now g (ip, ts)))
                      <-> In x (blocked_ips g)
                          \/ (x = ip /\ dos_big now (dos_threshold g) ts = true)).
      { unfold dos_step, dos_big, dos_recent. simpl.
        destruct (dos_threshold g <? _)%Z; simpl.
        - rewrite set_add_in. intuition.
        - intuition discriminate. }
      rewrite Hstep. split.
      * intros [[H|[-> Hbig]]|[ts' [Hin Hbig]]].
        -- left; exact H.
        -- right; exists ts; split; [left; reflexivity|exact Hbig].
        -- right; exists ts'; split; [right; exact Hin|exact Hbig].
      * intros [H|[ts' [[E|Hin] Hbig]]].
        -- left; left; exact H.
        -- inversion E; subst. left; right; split; [reflexivity|exact Hbig].
        -- right; exists ts'; split; [exact Hin|exact Hbig].
Qed.

Lemma dos_window_code (now t : Z) :
  Qltb (total_seconds (now - t)) 60 = (now - t <? 60 * 1000000)%Z.
Proof.
  destruct (now - t <? 60 * 1000000)%Z eqn:E.
  - apply Qltb_true. apply Z.ltb_lt in E. unfold total_seconds, Qlt; simpl. lia.
  - apply Qltb_false. apply Z.ltb_ge in E. unfold total_seconds, Qle; simpl. lia.
Qed.

Lemma filter_length_mono {A} (f h : A -> bool) (l : list A) :
  (forall x, f x = true -> h x = true) ->
  (length (filter f l) <= length (filter h l))%nat.
Proof.
  intros Hfh. induction l as [|x l IH]; simpl; [lia|].
  destruct (f x) eqn:E; [rewrite (Hfh x E); simpl; lia|].
  destruct (h x); simpl; lia.
Qed.

Lemma flat_map_key_none {A B} (F : string * A -> list B) (k : string) L :
  ~ In k (map fst L) ->
  flat_map (fun e => if String.eqb (fst e) k then F e else []) L = [].
Proof.
  induction L as [|[k' v'] L IH]; simpl; intros Hn; [reflexivity|].
  destruct (String.eqb k' k) eqn:E.
  - apply String.eqb_eq in E. subst. exfalso. apply Hn. left. reflexivity.
  - apply IH. intros H; apply Hn; right; exact H.
Qed.

Lemma flat_map_key_unique {A B} (F : string * A -> list B) (k : string) v L :
  NoDup (map fst L) -> lookup k L = Some v ->
  flat_map (fun e => if String.eqb (fst e) k then F e else []) L = F (k, v).
Proof.
  induction L as [|[k' v'] L IH]; simpl; intros Hnd Hl; [discriminate|].
  inversion Hnd as [|? ? Hnin Hnd']; subst.
  destruct (String.eqb k k') eqn:E.
  - apply String.eqb_eq in E. subst k'. inversion Hl; subst v'.
    rewrite String.eqb_refl, flat_map_key_none, app_nil_r; [reflexivity|exact Hnin].
  - rewrite String.eqb_sym, E. simpl. apply IH; assumption.
Qed.

Lemma lookup_unique {A} (k : string) (v v' : A) L :
  NoDup (map fst L) -> lookup k L = Some v -> In (k, v') L -> v' = v.
Proof.
  induction L as [|[k1 v1] L IH]; simpl; intros Hnd Hl Hin; [destruct Hin|].
  inversion Hnd as [|? ? Hnin Hnd']; subst.
  destruct (String.eqb k k1) eqn:E.
  - apply String.eqb_eq in E; subst k1. inversion Hl; subst v1.
    destruct Hin as [E|Hin]; [inversion E; reflexivity|].
    exfalso. apply Hnin. apply in_map_iff. exists (k, v'). auto.
  - destruct Hin as [E'|Hin]; [inversion E'; subst; rewrite String.eqb_refl in E; discriminate|].
    apply IH; assumption.
Qed.

Lemma eqb_ip_prefix (a b : string) :
  String.eqb ("ip_" ++ a) ("ip_" ++ b) = String.eqb a b.
Proof. reflexivity. Qed.

Lemma dos_events_for (now thr : Z) (ip : string) (e : string * list Z) :
  filter (dos_event_for ip) (dos_events now thr e)
  = if String.eqb (fst e) ip then dos_events now thr e else [].
Proof.
  destruct e as [ip' ts]. unfold dos_events.
  destruct (dos_big now thr ts); [|simpl; destruct (String.eqb ip' ip); reflexivity].
  cbn [filter fst]. unfold dos_event_for.
  cbn [Event.event_type Event.peer_id AttackType_eqb andb].
  rewrite eqb_ip_prefix. destruct (String.eqb ip' ip); reflexivity.
Qed.

Lemma lookup_in {A} (k : string) (v : A) L : lookup k L = Some v -> In (k, v) L.
Proof.
  induction L as [|[k' v'] L IH]; simpl; intros H; [discriminate|].
  destruct (String.eqb k k') eqn:E; [|right; apply IH, H].
  apply String.eqb_eq in E; subst. inversion H; subst. left; reflexivity.
Qed.

Lemma filter_flat_map {A B} (p : B -> bool) (F : A -> list B) (L : list A) :
  filter p (flat_map F L) = flat_map (fun e => filter p (F e)) L.
Proof.
  induction L as [|a L IH]; simpl; [reflexivity|]. rewrite filter_app, IH. reflexivity.
Qed.

Lemma dos_new_events_for now g ip ts :
  NoDup (map fst (connection_attempts g)) ->
  lookup ip (connection_attempts g) = Some ts ->
  filter (dos_event_for ip)
    (flat_map (dos_events now (dos_threshold g)) (connection_attempts g))
  = dos_events now (dos_threshold g) (ip, ts).
Proof.
  intros Hnd Hl. rewrite filter_flat_map.
  rewrite (flat_map_ext _ (fun e => if String.eqb (fst e) ip
                                    then dos_events now (dos_threshold g) e else []))
    by (intros e; apply dos_events_for).
  apply flat_map_key_unique; assumption.
Qed.

End Dos.

(** C3: with the threshold at 100, when [ip] (one key of
    [connection_attempts]) has at least 101 attempts no older than 60
    seconds, one run of [detect_dos_attacks] puts [ip] in [blocked_ips]
    and appends exactly one DoS event about [ip], of severity critical;
    when its attempts are all in the past and at most 99 of them lie in
    the window, the run leaves the membership of [ip] in [blocked_ips]
    as it was and appends no DoS event about [ip]. *)
Theorem dos_detection_threshold :
  forall (now : Z) (g : Guardian.SecurityGuardian) (ip : string) (ts : list Z),
  Guardian.dos_threshold g = 100%Z ->
  NoDup (map fst (Guardian.connection_attempts g)) ->
  lookup ip (Guardian.connection_attempts g) = Some ts ->
  ((101 <= length (filter (Inputs.in_window now) ts))%nat ->
     In ip (Guardian.blocked_ips (Guardian.detect_dos_attacks now g))
     /\ exists new e,
          Guardian.security_events (Guardian.detect_dos_attacks now g)
          = Guardian.security_events g ++ new
          /\ filter (Inputs.dos_event_for ip) new = [e]
          /\ Guardian.Event.event_type e = Guardian.DOS
          /\ Guardian.Event.severity e = Guardian.CRITICAL)
  /\ ((forall t, In t ts -> (t <= now)%Z) ->
      (length (filter (Inputs.in_window now) ts) <= 99)%nat ->
      (In ip (Guardian.blocked_ips (Guardian.detect_dos_attacks now g))
       <-> In ip (Guardian.blocked_ips g))
      /\ exists new,
           Guardian.security_events (Guardian.detect_dos_attacks now g)
           = Guardian.security_events g ++ new
           /\ filter (Inputs.dos_event_for ip) new = []).
Proof.
  intros now g ip ts Hthr Hnd Hl.
  destruct (dos_fold_spec now (Guardian.connection_attempts g) g) as [_ [He Hb]].
  unfold Guardian.detect_dos_attacks. rewrite He.
  pose proof (dos_new_events_for now g ip ts Hnd Hl) as Hf.
  rewrite Hthr in Hb, Hf.
  split.
  - intros Hmany.
    assert (Hbig : Inputs.dos_big now 100 ts = true).
    { unfold Inputs.dos_big, Inputs.dos_recent. apply Z.ltb_lt.
      assert (Hle : (length (filter (Inputs.in_window now) ts)
                     <= length (filter (fun t => Qltb (total_seconds (now - t)) 60) ts))%nat).
      { apply filter_length_mono. intros t Ht. rewrite dos_window_code.
        unfold Inputs.in_window in Ht. apply andb_prop in Ht as [_ Ht]. exact Ht. }
      lia. }
    split.
    + apply Hb. right. exists ts. split; [apply lookup_in, Hl|exact Hbig].
    + rewrite Hthr. eexists; eexists; split; [reflexivity|].
      rewrite Hf. unfold Inputs.dos_events. rewrite Hbig.
      split; [reflexivity|split; reflexivity].
  - intros Hpast Hfew.
    assert (Hsmall : Inputs.dos_big now 100 ts = false).
    { unfold Inputs.dos_big, Inputs.dos_recent. apply Z.ltb_ge.
      rewrite (filter_ext_in _ (Inputs.in_window now)); [lia|].
      intros t Ht. rewrite dos_window_code. unfold Inputs.in_window.
      specialize (Hpast t Ht).
      assert (H0 : (0 <=? now - t)%Z = true) by (apply Z.leb_le; lia).
      rewrite H0. reflexivity. }
    split.
    + rewrite Hb. split; [|intros H; left; exact H].
      intros [H|[ts' [Hin Hbig]]]; [exact H|].
      rewrite (lookup_unique ip ts ts' _ Hnd Hl Hin), Hsmall in Hbig. discriminate.
    + rewrite Hthr. eexists; split; [reflexivity|].
      rewrite Hf. unfold Inputs.dos_events. rewrite Hsmall. reflexivity.
Qed.

(** ** C7: the blocked-IP set only grows *)

Section Blocked.
Import Guardian Inputs.

Lemma scale_fold_blocked (c : Q) (l : list string) g :
  blocked_ips (fold_left (fun g pid => scale_trust c pid g) l g) = blocked_ips g.
Proof.
  revert g. induction l as [|p l IH]; intros g; simpl; [reflexivity|].
  rewrite IH. reflexivity.
Qed.

Lemma sybil_blocked now g : blocked_ips (detect_sybil_attacks now g) = blocked_ips g.
Proof.
  unfold detect_sybil_attacks. generalize (ip_to_peers g). intros l.
  revert g. induction l as [|[ip peers] l IH]; intros g; simpl; [reflexivity|].
  rewrite IH. unfold sybil_step.
  match goal with |- context [if ?c then _ else _] => destruct c end;
    [|reflexivity].
  rewrite scale_fold_blocked. reflexivity.
Qed.

Lemma apply_op_blocked g o x :
  In x (blocked_ips g) -> In x (blocked_ips (apply_op g o)).
Proof.
  assert (Hdos : forall now g, In x (blocked_ips g) ->
                 In x (blocked_ips (detect_dos_attacks now g))).
  { intros now g0 H. destruct (dos_fold_spec now (connection_attempts g0) g0)
      as [_ [_ Hb]]. apply Hb. left. exact H. }
  assert (Hecl : forall now g, blocked_ips (detect_eclipse_attacks now g) = blocked_ips g)
    by (intros now g0; unfold detect_eclipse_attacks;
        destruct (eclipse_scan now (peer_reputation g0)); reflexivity).
  assert (Hvdf : forall now g, blocked_ips (detect_vdf_manipulation now g) = blocked_ips g)
    by (intros now g0; unfold detect_vdf_manipulation;
        destruct (vdf_scan now (peer_reputation g0)); reflexivity).
  intros H. destruct o; simpl.
  - unfold register_peer. destruct (lookup pid _); exact H.
  - unfold record_successful_block. destruct (lookup pid _); exact H.
  - unfold record_failed_validation. destruct (lookup pid _); exact H.
  - exact H.
  - apply set_add_in. right. exact H.
  - apply Hdos, H.
  - rewrite sybil_blocked. exact H.
  - rewrite Hecl. exact H.
  - rewrite Hvdf. exact H.
  - exact H.
  - exact H.
  - unfold security_cycle. simpl.
    rewrite Hvdf, Hecl, sybil_blocked. apply Hdos, H.
Qed.

Lemma run_ops_blocked g os x :
  In x (blocked_ips g) -> In x (blocked_ips (run_ops g os)).
Proof.
  unfold run_ops. revert g. induction os as [|o os IH]; intros g H; simpl;
    [exact H|apply IH, apply_op_blocked, H].
Qed.

End Blocked.

(** C7 (refuted, code defect): the IP [1.2.3.4] with 101 attempts at
    time 0 is blocked by the DoS pass (for a nominal 60 minutes), and
    stays in [blocked_ips] after every later sequence of operations,
    including security cycles run after the 60 minutes have elapsed:
    no step of the code ever removes an IP from the set. *)
Theorem dos_block_never_lifted :
  forall os : list Guardian.op,
  In "1.2.3.4"%string
     (Guardian.blocked_ips
        (Guardian.run_ops (Guardian.detect_dos_attacks 0 Inputs.guardian_flood) os)).
Proof.
  intros os. apply run_ops_blocked. vm_compute. left. reflexivity.
Qed.

(** ** C6: pruning the peer pool *)

Section Prune.
Import Booster Inputs.

Lemma insert_perm (x : string * Q) s : Permutation (insert_by_latency x s) (x :: s).
Proof.
  induction s as [|y s IH]; simpl; [reflexivity|].
  destruct (Qltb (snd y) (snd x)); [|reflexivity].
  rewrite IH. apply perm_swap.
Qed.

Lemma sort_perm l : Permutation (sort_by_latency l) l.
Proof.
  induction l as [|x l IH]; simpl; [reflexivity|].
  rewrite insert_perm, IH. reflexivity.
Qed.

Lemma ranks_before_le L a b : ranks_before L a b -> snd a <= snd b.
Proof. intros [H|[H _]]; [apply Qlt_le_weak, H|rewrite H; apply Qle_refl]. Qed.

Lemma insert_sorted L x s :
  StronglySorted (ranks_before L) s ->
  (forall y, In y s -> snd y < snd x -> ranks_before L y x) ->
  (forall y, In y s -> snd x <= snd y -> ranks_before L x y) ->
  StronglySorted (ranks_before L) (insert_by_latency x s).
Proof.
  induction s as [|y s IH]; simpl; intros Hs Hlt Hge.
  - repeat constructor.
  - apply StronglySorted_inv in Hs as [Hs Hy].
    destruct (Qltb (snd y) (snd x)) eqn:E.
    + apply Qltb_true in E. constructor.
      * apply IH; [exact Hs| |]; intros z Hz; [apply Hlt|apply Hge]; auto.
      * apply Forall_forall. intros z Hz.
        apply (Permutation_in _ (insert_perm x s)) in Hz as [<-|Hz];
          [apply Hlt; auto|exact (proj1 (Forall_forall _ _) Hy z Hz)].
    + apply Qltb_false in E. constructor; [constructor; assumption|].
      constructor; [apply Hge; auto|].
      apply Forall_forall. intros z Hz. apply Hge; [auto|].
      apply (Qle_trans _ (snd y)); [exact E|].
      apply (ranks_before_le L), (proj1 (Forall_forall _ _) Hy z Hz).
Qed.

Lemma strongly_sorted_impl {A} (R R' : A -> A -> Prop) (l : list A) :
  (forall a b, R a b -> R' a b) -> StronglySorted R l -> StronglySorted R' l.
Proof.
  intros HR H. induction H as [|a l Hs IH Hf]; constructor; [exact IH|].
  eapply Forall_impl; [|exact Hf]. intros b; apply HR.
Qed.

Lemma before_cons L x a b : before L a b -> before (x :: L) a b.
Proof. intros [i [j [Hij [Hi Hj]]]]. exists (S i), (S j). simpl. auto with arith. Qed.

Lemma sort_sorted l : StronglySorted (ranks_before l) (sort_by_latency l).
Proof.
  induction l as [|x l IH]; simpl; [constructor|].
  apply insert_sorted.
  - eapply strongly_sorted_impl; [|exact IH].
    intros a b [H|[H1 H2]]; [left; exact H|right; split; [exact H1|apply before_cons, H2]].
  - intros y _ H. left. exact H.
  - intros y Hy H. apply (Permutation_in _ (sort_perm l)) in Hy.
    apply Qle_lt_or_eq in H as [H|H]; [left; exact H|right; split; [exact H|]].
    apply In_nth_error in Hy as [j Hj]. exists 0%nat, (S j). simpl. auto with arith.
Qed.

Lemma sorted_app_rel {A} (R : A -> A -> Prop) xs ys :
  StronglySorted R (xs ++ ys) -> forall a b, In a xs -> In b ys -> R a b.
Proof.
  induction xs as [|x xs IH]; simpl; intros H a b Ha Hb; [destruct Ha|].
  apply StronglySorted_inv in H as [H Hf].
  destruct Ha as [<-|Ha]; [|exact (IH H a b Ha Hb)].
  apply (proj1 (Forall_forall _ _) Hf). apply in_or_app. right. exact Hb.
Qed.

Lemma assign_fresh {V} (k : string) (v : V) d :
  ~ In k (map fst d) -> assign k v d = d ++ [(k, v)].
Proof.
  induction d as [|[k' v'] d IH]; simpl; intros Hn; [reflexivity|].
  destruct (String.eqb k k') eqn:E.
  - apply String.eqb_eq in E. subst. exfalso. apply Hn. left. reflexivity.
  - rewrite IH; [reflexivity|]. intros H. apply Hn. right. exact H.
Qed.

Lemma dict_fold (l d : list (string * Q)) :
  NoDup (map fst (d ++ l)) ->
  fold_left (fun d '(k, v) => assign k v d) l d = d ++ l.
Proof.
  revert d. induction l as [|[k v] l IH]; intros d Hnd; simpl.
  - rewrite app_nil_r. reflexivity.
  - rewrite map_app in Hnd. simpl in Hnd.
    rewrite assign_fresh.
    + rewrite IH; [rewrite <- app_assoc; reflexivity|].
      rewrite <- app_assoc, map_app. exact Hnd.
    + intros Hin. apply (NoDup_remove_2 _ _ _ Hnd). apply in_or_app. left. exact Hin.
Qed.

Lemma dict_of_list_nodup (l : list (string * Q)) :
  NoDup (map fst l) -> dict_of_list l = l.
Proof. intros Hnd. apply (dict_fold l []). exact Hnd. Qed.

End Prune.

Lemma optimize_prunes (b : Booster.NetworkBooster) :
  (0 <= Booster.max_outbound b)%Z ->
  (Booster.max_outbound b < Z.of_nat (length (Booster.peer_latencies b)))%Z ->
  inject_Z (Booster.max_peers b) * 0.9 < qnat (length (Booster.peer_latencies b)) ->
  Booster.peer_latencies (Booster.optimize_peer_connections b)
  = Booster.dict_of_list
      (firstn (Z.to_nat (Booster.max_outbound b))
              (Booster.sort_by_latency (Booster.peer_latencies b))).
Proof.
  intros H0 Hlt H9. unfold Booster.optimize_peer_connections.
  set (n := qnat (length (Booster.peer_latencies b))) in *.
  set (m := inject_Z (Booster.max_peers b)) in *.
  assert (Hn : 0 <= n) by (unfold n, qnat; change 0 with (inject_Z 0);
                           rewrite <- Zle_Qle; lia).
  assert (E8 : Qltb n (m * 0.8) = false).
  { apply Qltb_false. destruct (Qlt_le_dec m 0); nra. }
  assert (E9 : Qltb (m * 0.9) n = true) by (apply Qltb_true; exact H9).
  rewrite E8. cbv zeta. rewrite E9.
  unfold Booster.prune_poor_performers.
  assert (Ek : (Z.of_nat (length (Booster.peer_latencies b)) <=? Booster.max_outbound b)%Z
               = false) by (apply Z.leb_gt; exact Hlt).
  rewrite Ek. simpl. unfold take_z.
  assert (E0 : (0 <=? Booster.max_outbound b)%Z = true) by (apply Z.leb_le; exact H0).
  rewrite E0. reflexivity.
Qed.

(** C6 (amended): when the peer count exceeds 90% of [max_peers] and
    [0 <= max_outbound < count], [optimize_peer_connections] keeps exactly
    [max_outbound] of the recorded peers, and every kept peer ranks ahead
    of every evicted one: strictly lower latency, or equal latency and
    recorded earlier in [peer_latencies] (Python's stable sort on latency
    alone; the peer identifier plays no part). *)
Theorem prune_keeps_lowest_latency :
  forall b : Booster.NetworkBooster,
  NoDup (map fst (Booster.peer_latencies b)) ->
  (0 <= Booster.max_outbound b)%Z ->
  (Booster.max_outbound b < Z.of_nat (length (Booster.peer_latencies b)))%Z ->
  inject_Z (Booster.max_peers b) * 0.9 < qnat (length (Booster.peer_latencies b)) ->
  length (Booster.peer_latencies (Booster.optimize_peer_connections b))
    = Z.to_nat (Booster.max_outbound b)
  /\ (forall e, In e (Booster.peer_latencies (Booster.optimize_peer_connections b)) ->
                In e (Booster.peer_latencies b))
  /\ (forall p q,
        In p (Booster.peer_latencies (Booster.optimize_peer_connections b)) ->
        In q (Booster.peer_latencies b) ->
        ~ In q (Booster.peer_latencies (Booster.optimize_peer_connections b)) ->
        Inputs.ranks_before (Booster.peer_latencies b) p q).
Proof.
  intros b Hnd H0 Hlt H9. rewrite (optimize_prunes b H0 Hlt H9).
  set (l := Booster.peer_latencies b) in *.
  set (k := Z.to_nat (Booster.max_outbound b)).
  set (srt := Booster.sort_by_latency l).
  assert (Hperm : Permutation srt l) by apply sort_perm.
  assert (Hnds : NoDup (map fst srt))
    by (apply (Permutation_NoDup (Permutation_map fst (Permutation_sym Hperm))), Hnd).
  assert (Hsplit : srt = firstn k srt ++ skipn k srt) by (symmetry; apply firstn_skipn).
  rewrite dict_of_list_nodup.
  2:{ rewrite Hsplit, map_app in Hnds. apply NoDup_app_remove_r in Hnds. exact Hnds. }
  split; [|split].
  - rewrite length_firstn, (Permutation_length Hperm). unfold k. lia.
  - intros e He. apply (Permutation_in _ Hperm). rewrite Hsplit. apply in_or_app. left. exact He.
  - intros p q Hp Hq Hnq.
    apply (sorted_app_rel _ (firstn k srt) (skipn k srt)).
    + rewrite <- Hsplit. apply sort_sorted.
    + exact Hp.
    + apply (Permutation_in _ (Permutation_sym Hperm)) in Hq.
      rewrite Hsplit in Hq. apply in_app_or in Hq as [Hq|Hq]; [contradiction|exact Hq].
Qed.

(** C6 (as stated, ties broken by peer identifier) fails: in
    [booster_tie] the peers ["b"] and ["a"] share latency 10, ["b"] was
    recorded first; pruning to one peer keeps ["b"], whereas an
    identifier tie-break would keep ["a"]. *)
Lemma prune_tie_break_counterexample :
  ~ (forall p q,
       In p (Booster.peer_latencies Inputs.booster_tie) ->
       In q (Booster.peer_latencies Inputs.booster_tie) ->
       snd p == snd q -> String.ltb (fst p) (fst q) = true ->
       In q (Booster.peer_latencies (Booster.optimize_peer_connections Inputs.booster_tie)) ->
       In p (Booster.peer_latencies (Booster.optimize_peer_connections Inputs.booster_tie))).
Proof.
  intros H.
  specialize (H ("a"%string, 10) ("b"%string, 10)).
  assert (Hk : In ("a"%string, 10)
                 (Booster.peer_latencies (Booster.optimize_peer_connections Inputs.booster_tie))).
  { apply H; [simpl; auto|simpl; auto|reflexivity|reflexivity|vm_compute; auto]. }
  vm_compute in Hk. destruct Hk as [Hk|[]]. discriminate Hk.
Qed.

(** ** C4: Sybil detection *)

Section Sybil.
Import Guardian Inputs.

Lemma map_fst_assign {V} (k : string) (v : V) d :
  map fst (assign k v d)
  = if existsb (String.eqb k) (map fst d) then map fst d else map fst d ++ [k].
Proof.
  induction d as [|[k' v'] d IH]; simpl; [reflexivity|].
  destruct (String.eqb k k') eqn:E; simpl; [reflexivity|].
  rewrite IH. destruct (existsb _ _); reflexivity.
Qed.

Lemma in_assign_nodup {V} (k k2 : string) (v w : V) d :
  NoDup (map fst d) -> In (k2, w) (assign k v d) ->
  (k2 = k /\ w = v) \/ (k2 <> k /\ In (k2, w) d).
Proof.
  induction d as [|[k' v'] d IH]; simpl; intros Hnd Hin.
  - destruct Hin as [E|[]]. inversion E; auto.
  - inversion Hnd as [|? ? Hn Hnd']; subst.
    destruct (String.eqb k k') eqn:E.
    + apply String.eqb_eq in E; subst k'.
      destruct Hin as [E|Hin]; [inversion E; auto|].
      right. split; [|auto]. intros ->. apply Hn, in_map_iff. exists (k, w). auto.
    + destruct Hin as [E'|Hin].
      * inversion E'; subst. right. split; [|auto].
        intros ->. rewrite String.eqb_refl in E. discriminate.
      * destruct (IH Hnd' Hin) as [H|[H1 H2]]; auto.
Qed.

Lemma lookup_of_in {V} (k : string) (v : V) d :
  NoDup (map fst d) -> In (k, v) d -> lookup k d = Some v.
Proof.
  induction d as [|[k' v'] d IH]; simpl; intros Hnd Hin; [destruct Hin|].
  inversion Hnd as [|? ? Hn Hnd']; subst.
  destruct Hin as [E|Hin].
  - inversion E; subst. rewrite String.eqb_refl. reflexivity.
  - destruct (String.eqb k k') eqn:E.
    + apply String.eqb_eq in E; subst. exfalso. apply Hn, in_map_iff.
      exists (k', v). auto.
    + apply IH; assumption.
Qed.

Lemma lookup_none {V} (k : string) (d : list (string * V)) :
  ~ In k (map fst d) -> lookup k d = None.
Proof.
  induction d as [|[k' v'] d IH]; simpl; intros Hn; [reflexivity|].
  destruct (String.eqb k k') eqn:E.
  - apply String.eqb_eq in E; subst. exfalso. apply Hn. left. reflexivity.
  - apply IH. intros H. apply Hn. right. exact H.
Qed.

Lemma existsb_eqb_in (k : string) (l : list string) :
  existsb (String.eqb k) l = true <-> In k l.
Proof.
  rewrite existsb_exists. split.
  - intros [x [Hx E]]. apply String.eqb_eq in E. subst. exact Hx.
  - intros H. exists k. split; [exact H|apply String.eqb_refl].
Qed.

Lemma group_add_spec A pid rep acc :
  NoDup (map fst (A ++ [(pid, rep)])) -> groups_of A acc ->
  groups_of (A ++ [(pid, rep)]) (group_add (ip_address rep) pid acc).
Proof.
  intros Hnd [Hk [Hp Hi]]. unfold group_add.
  assert (HpidA : ~ In pid (map fst A)).
  { rewrite map_app in Hnd. simpl in Hnd. intros H.
    apply (NoDup_remove_2 _ _ _ Hnd). rewrite app_nil_r. exact H. }
  assert (Hkw : forall ip, keys_with_ip (A ++ [(pid, rep)]) ip
                = keys_with_ip A ip
                  ++ (if String.eqb (ip_address rep) ip then [pid] else [])).
  { intros ip. unfold keys_with_ip. rewrite filter_app, map_app. simpl.
    destruct (String.eqb (ip_address rep) ip); reflexivity. }
  destruct (lookup (ip_address rep) acc) as [pids|] eqn:El.
  - assert (Hin : In (ip_address rep, pids) acc) by (apply lookup_in, El).
    assert (Hpids : pids = keys_with_ip A (ip_address rep)) by (apply Hp, Hin).
    assert (Hnp : ~ In pid pids).
    { rewrite Hpids. unfold keys_with_ip. intros H. apply HpidA.
      apply in_map_iff in H as [e [<- He]]. apply filter_In in He as [He _].
      apply in_map. exact He. }
    split; [|split].
    + rewrite map_fst_assign.
      assert (Hk' : existsb (String.eqb (ip_address rep)) (map fst acc) = true)
        by (apply existsb_eqb_in, in_map_iff; exists (ip_address rep, pids); auto).
      rewrite Hk'. exact Hk.
    + intros ip ps Hips. apply in_assign_nodup in Hips; [|exact Hk].
      destruct Hips as [[-> ->]|[Hne Hips]].
      * rewrite Hkw, String.eqb_refl, <- Hpids. unfold set_add.
        destruct (existsb (String.eqb pid) pids) eqn:Ee;
          [apply existsb_eqb_in in Ee; contradiction|reflexivity].
      * rewrite Hkw. rewrite (Hp _ _ Hips).
        destruct (String.eqb (ip_address rep) ip) eqn:E;
          [apply String.eqb_eq in E; congruence|symmetry; apply app_nil_r].
    + intros ip. rewrite map_fst_assign.
      assert (Hk' : existsb (String.eqb (ip_address rep)) (map fst acc) = true)
        by (apply existsb_eqb_in, in_map_iff; exists (ip_address rep, pids); auto).
      rewrite Hk', Hi. split.
      * intros [e [He Hip]]. exists e. split; [apply in_or_app; left; exact He|exact Hip].
      * intros [e [He Hip]]. apply in_app_or in He as [He|[<-|[]]]; [exists e; auto|].
        apply Hi. apply in_map_iff. exists (ip_address rep, pids). simpl. auto.
  - assert (Hnk : ~ In (ip_address rep) (map fst acc)).
    { intros H. apply in_map_iff in H as [[ip ps] [E H]]. simpl in E. subst ip.
      rewrite (lookup_of_in _ _ _ Hk H) in El. discriminate. }
    assert (Hnk' : existsb (String.eqb (ip_address rep)) (map fst acc) = false).
    { destruct (existsb _ _) eqn:E; [apply existsb_eqb_in in E; contradiction|reflexivity]. }
    assert (HA : keys_with_ip A (ip_address rep) = []).
    { unfold keys_with_ip. destruct (filter _ A) as [|e l] eqn:Ef; [reflexivity|].
      exfalso. apply Hnk, Hi. exists e.
      assert (He : In e (filter (fun e => String.eqb (ip_address (snd e)) (ip_address rep)) A))
        by (rewrite Ef; left; reflexivity).
      apply filter_In in He as [He Eq]. apply String.eqb_eq in Eq. auto. }
    split; [|split].
    + rewrite map_fst_assign, Hnk'. apply NoDup_app; [exact Hk|repeat constructor; auto|].
      intros x Hx [<-|[]]. contradiction.
    + intros ip ps Hips.
      apply in_assign_nodup in Hips; [|exact Hk].
      destruct Hips as [[-> ->]|[Hne Hips]].
      * rewrite Hkw, String.eqb_refl, HA. reflexivity.
      * rewrite Hkw, (Hp _ _ Hips).
        destruct (String.eqb (ip_address rep) ip) eqn:E;
          [apply String.eqb_eq in E; congruence|symmetry; apply app_nil_r].
    + intros ip. rewrite map_fst_assign, Hnk', in_app_iff, Hi. simpl. split.
      * intros [[e [He Hip]]|[<-|[]]].
        -- exists e. split; [apply in_or_app; left; exact He|exact Hip].
        -- exists (pid, rep). split; [apply in_or_app; right; left; reflexivity|reflexivity].
      * intros [e [He Hip]]. apply in_app_or in He as [He|[<-|[]]];
          [left; exists e; auto|right; left; exact Hip].
Qed.

Lemma ip_to_peers_groups g :
  NoDup (map fst (peer_reputation g)) -> groups_of (peer_reputation g) (ip_to_peers g).
Proof.
  intros Hnd. unfold ip_to_peers.
  assert (H : forall B A acc, NoDup (map fst (A ++ B)) -> groups_of A acc ->
            groups_of (A ++ B)
              (fold_left (fun acc '(pid, reputation) =>
                            group_add (ip_address reputation) pid acc) B acc)).
  { induction B as [|[pid rep] B IH]; intros A acc HnB Hg; simpl.
    - rewrite app_nil_r. exact Hg.
    - replace (A ++ (pid, rep) :: B) with ((A ++ [(pid, rep)]) ++ B)
        by (rewrite <- app_assoc; reflexivity).
      apply IH.
      + rewrite <- app_assoc. exact HnB.
      + apply group_add_spec; [|exact Hg].
        assert (HnB' : NoDup (map fst ((A ++ [(pid, rep)]) ++ B)))
          by (rewrite <- app_assoc; exact HnB).
        rewrite map_app in HnB'.
        first [exact (NoDup_app_remove_r _ _ HnB') | exact (NoDup_app_remove_l _ _ HnB')]. }
  apply (H (peer_reputation g) [] []); [exact Hnd|].
  split; [constructor|split; [intros ? ? []|]].
  intros ip. simpl. split; [intros []|intros [e [[] _]]].
Qed.

Lemma scale_fold_spec (c : Q) (ps : list string) st :
  NoDup ps ->
  peer_reputation (fold_left (fun g pid => scale_trust c pid g) ps st)
  = map (fun '(k, v) => (k, if existsb (String.eqb k) ps
                            then set_trust (trust_score v * c) v else v))
        (peer_reputation st)
  /\ security_events (fold_left (fun g pid => scale_trust c pid g) ps st)
     = security_events st
  /\ min_trust_score (fold_left (fun g pid => scale_trust c pid g) ps st)
     = min_trust_score st.
Proof.
  revert st. induction ps as [|p ps IH]; intros st Hnd; simpl.
  - split; [|split; reflexivity].
    rewrite <- (map_id (peer_reputation st)) at 1. apply map_ext. intros [k v]. reflexivity.
  - inversion Hnd as [|? ? Hn Hnd']; subst.
    destruct (IH (scale_trust c p st) Hnd') as [Hp [He Hm]].
    rewrite Hp, He, Hm. split; [|split; reflexivity].
    unfold scale_trust, modify. simpl. rewrite map_map. apply map_ext.
    intros [k v]. destruct (String.eqb p k) eqn:E; simpl.
    + apply String.eqb_eq in E; subst k. rewrite String.eqb_refl. simpl.
      destruct (existsb (String.eqb p) ps) eqn:E2;
        [apply existsb_eqb_in in E2; contradiction|reflexivity].
    + rewrite String.eqb_sym, E. reflexivity.
Qed.

Lemma lookup_partial g D k :
  lookup k (sybil_partial g D)
  = option_map (fun r => if existsb (String.eqb (ip_address r)) D
                         then sybil_final g r else r)
      (lookup k (peer_reputation g)).
Proof.
  unfold sybil_partial.
  exact (lookup_map_vals k (fun r => if existsb (String.eqb (ip_address r)) D
                                     then sybil_final g r else r) _).
Qed.

Lemma susp_filter_gen g D st ip L :
  NoDup (map fst (peer_reputation g)) ->
  peer_reputation st = sybil_partial g D -> min_trust_score st = min_trust_score g ->
  ~ In ip D -> (forall e, In e L -> In e (peer_reputation g)) ->
  filter (is_suspicious st)
    (map fst (filter (fun e => String.eqb (ip_address (snd e)) ip) L))
  = map fst (filter (fun e => String.eqb (ip_address (snd e)) ip
                              && Qltb (trust_score (snd e)) (min_trust_score g)) L).
Proof.
  intros Hnd Hp Hm HD. induction L as [|[k r] L IH]; intros HL; simpl; [reflexivity|].
  assert (IH' := IH (fun e He => HL e (or_intror He))).
  destruct (String.eqb (ip_address r) ip) eqn:Ei; simpl; [|exact IH'].
  apply String.eqb_eq in Ei.
  assert (Hs : is_suspicious st k = Qltb (trust_score r) (min_trust_score g)).
  { unfold is_suspicious. rewrite Hp, lookup_partial,
      (lookup_of_in k r _ Hnd (HL _ (or_introl eq_refl))). simpl.
    rewrite Ei. destruct (existsb (String.eqb ip) D) eqn:E;
      [apply existsb_eqb_in in E; contradiction|].
    rewrite Hm. reflexivity. }
  rewrite Hs. destruct (Qltb (trust_score r) (min_trust_score g)); simpl;
    rewrite IH'; reflexivity.
Qed.

Lemma nodup_fst_filter {V} (f : string * V -> bool) (l : list (string * V)) :
  NoDup (map fst l) -> NoDup (map fst (filter f l)).
Proof.
  induction l as [|[k v] l IH]; simpl; intros Hnd; [constructor|].
  inversion Hnd as [|? ? Hn Hnd']; subst.
  destruct (f (k, v)); simpl; [|apply IH, Hnd'].
  constructor; [|apply IH, Hnd'].
  intros Hin. apply Hn. apply in_map_iff in Hin. destruct Hin as [e [Ee He]].
  apply filter_In in He. apply in_map_iff. exists e. split; [exact Ee|apply He].
Qed.

Lemma susp_key_same_ip g ip k r :
  NoDup (map fst (peer_reputation g)) -> In (k, r) (peer_reputation g) ->
  ip_address r = ip ->
  existsb (String.eqb k) (map fst (suspicious_at g ip))
  = Qltb (trust_score r) (min_trust_score g).
Proof.
  intros Hnd Hin Hip. destruct (Qltb (trust_score r) (min_trust_score g)) eqn:Eq.
  - apply existsb_eqb_in, in_map_iff. exists (k, r). split; [reflexivity|].
    apply filter_In. split; [exact Hin|]. simpl. rewrite Hip, String.eqb_refl, Eq.
    reflexivity.
  - destruct (existsb _ _) eqn:Ex; [|reflexivity].
    apply existsb_eqb_in, in_map_iff in Ex. destruct Ex as [[k' r'] [Ek Hin']].
    simpl in Ek; subst k'. apply filter_In in Hin'. destruct Hin' as [Hin' Hc].
    simpl in Hc. apply andb_true_iff in Hc. destruct Hc as [_ Hc].
    assert (r' = r) by exact (lookup_unique k r r' _ Hnd (lookup_of_in k r _ Hnd Hin) Hin').
    subst r'. congruence.
Qed.

Lemma susp_key_other_ip g ip k r :
  NoDup (map fst (peer_reputation g)) -> In (k, r) (peer_reputation g) ->
  ip_address r <> ip ->
  existsb (String.eqb k) (map fst (suspicious_at g ip)) = false.
Proof.
  intros Hnd Hin Hip. destruct (existsb _ _) eqn:Ex; [|reflexivity].
  apply existsb_eqb_in, in_map_iff in Ex. destruct Ex as [[k' r'] [Ek Hin']].
  simpl in Ek; subst k'. apply filter_In in Hin'. destruct Hin' as [Hin' Hc].
  simpl in Hc. apply andb_true_iff in Hc. destruct Hc as [Hc _].
  apply String.eqb_eq in Hc.
  assert (r' = r) by exact (lookup_unique k r r' _ Hnd (lookup_of_in k r _ Hnd Hin) Hin').
  subst r'. contradiction.
Qed.

Lemma sybil_step_inv now g D st new ip pids :
  NoDup (map fst (peer_reputation g)) ->
  ~ In ip D -> pids = keys_with_ip (peer_reputation g) ip ->
  peer_reputation st = sybil_partial g D -> min_trust_score st = min_trust_score g ->
  security_events st = security_events g ++ new ->
  peer_reputation (sybil_step now st (ip, pids)) = sybil_partial g (D ++ [ip])
  /\ min_trust_score (sybil_step now st (ip, pids)) = min_trust_score g
  /\ security_events (sybil_step now st (ip, pids))
     = security_events g ++ (new ++ sybil_events now g (ip, pids)).
Proof.
  intros Hnd HD Hpids Hp Hm He.
  assert (Hf : filter (is_suspicious st) pids = map fst (suspicious_at g ip)).
  { rewrite Hpids. unfold keys_with_ip, suspicious_at.
    apply susp_filter_gen with (D := D); try assumption.
    intros e Hin. exact Hin. }
  unfold sybil_step, sybil_events. cbv beta iota zeta.
  rewrite Hf, length_map.
  assert (Hext : forall k r, In (k, r) (peer_reputation g) ->
            existsb (String.eqb (ip_address r)) (D ++ [ip])
            = existsb (String.eqb (ip_address r)) D || String.eqb (ip_address r) ip).
  { intros k r _. rewrite existsb_app. simpl. rewrite orb_false_r. reflexivity. }
  destruct (Nat.leb 5 (length (suspicious_at g ip))) eqn:E5.
  - assert (Hnds : NoDup (map fst (suspicious_at g ip)))
      by (apply nodup_fst_filter, Hnd).
    set (st0 := set_events st _).
    destruct (scale_fold_spec 0.5 _ st0 Hnds) as [H1 [H2 H3]].
    rewrite H1, H2, H3. subst st0. simpl.
    split; [|split; [exact Hm|rewrite He, app_assoc; reflexivity]].
    rewrite Hp. unfold sybil_partial. rewrite map_map. apply map_ext_in.
    intros [k r] Hin. cbv beta iota. f_equal. rewrite (Hext k r Hin).
    destruct (String.eqb (ip_address r) ip) eqn:Ei.
    + apply String.eqb_eq in Ei.
      rewrite (susp_key_same_ip g ip k r Hnd Hin Ei).
      rewrite orb_true_r. rewrite Ei.
      destruct (existsb (String.eqb ip) D) eqn:ED;
        [apply existsb_eqb_in in ED; contradiction|].
      unfold sybil_final. rewrite Ei, E5.
      destruct (Qltb (trust_score r) (min_trust_score g)); reflexivity.
    + assert (Ei' : ip_address r <> ip) by (intros E; rewrite E, String.eqb_refl in Ei; discriminate).
      rewrite (susp_key_other_ip g ip k r Hnd Hin Ei'), orb_false_r. reflexivity.
  - split; [|split; [exact Hm|rewrite He, app_nil_r; reflexivity]].
    rewrite Hp. unfold sybil_partial. apply map_ext_in.
    intros [k r] Hin. cbv beta iota. f_equal. rewrite (Hext k r Hin).
    destruct (String.eqb (ip_address r) ip) eqn:Ei.
    + apply String.eqb_eq in Ei. rewrite orb_true_r, Ei.
      destruct (existsb (String.eqb ip) D) eqn:ED;
        [apply existsb_eqb_in in ED; contradiction|].
      unfold sybil_final. rewrite Ei, E5, andb_false_r. reflexivity.
    + rewrite orb_false_r. reflexivity.
Qed.

Lemma sybil_fold_inv now g gs D st new :
  NoDup (map fst (peer_reputation g)) -> NoDup (map fst gs) ->
  (forall ip, In ip (map fst gs) -> ~ In ip D) ->
  (forall ip pids, In (ip, pids) gs -> pids = keys_with_ip (peer_reputation g) ip) ->
  peer_reputation st = sybil_partial g D -> min_trust_score st = min_trust_score g ->
  security_events st = security_events g ++ new ->
  peer_reputation (fold_left (sybil_step now) gs st) = sybil_partial g (D ++ map fst gs)
  /\ min_trust_score (fold_left (sybil_step now) gs st) = min_trust_score g
  /\ security_events (fold_left (sybil_step now) gs st)
     = security_events g ++ (new ++ flat_map (sybil_events now g) gs).
Proof.
  revert D st new.
  induction gs as [|[ip pids] gs IH]; intros D st new Hnd Hndg HD Hg Hp Hm He;
    cbn [fold_left map flat_map].
  - rewrite !app_nil_r. auto.
  - inversion Hndg as [|? ? Hn Hndg']; subst.
    destruct (sybil_step_inv now g D st new ip pids Hnd (HD ip (or_introl eq_refl))
                (Hg ip pids (or_introl eq_refl)) Hp Hm He) as [H1 [H2 H3]].
    destruct (IH (D ++ [ip]) (sybil_step now st (ip, pids)) (new ++ sybil_events now g (ip, pids))
                Hnd Hndg') as [I1 [I2 I3]];
      [| intros ip' pids' Hin; apply Hg; right; exact Hin | exact H1 | exact H2 | exact H3 |].
    + intros ip' Hin Hin'. apply in_app_iff in Hin'. destruct Hin' as [Hin'|[<-|[]]].
      * exact (HD ip' (or_intror Hin) Hin').
      * exact (Hn Hin).
    + rewrite <- app_assoc in I1. rewrite <- !app_assoc in I3. simpl in I1.
      split; [exact I1|split; [exact I2|exact I3]].
Qed.

Lemma detect_sybil_spec now g :
  NoDup (map fst (peer_reputation g)) ->
  peer_reputation (detect_sybil_attacks now g)
  = map (fun '(k, r) => (k, sybil_final g r)) (peer_reputation g)
  /\ security_events (detect_sybil_attacks now g)
     = security_events g ++ flat_map (sybil_events now g) (ip_to_peers g).
Proof.
  intros Hnd. destruct (ip_to_peers_groups g Hnd) as [Hk [Hpids Hips]].
  unfold detect_sybil_attacks.
  destruct (sybil_fold_inv now g (ip_to_peers g) [] g [] Hnd Hk) as [H1 [_ H3]].
  - intros ? ? [].
  - exact Hpids.
  - unfold sybil_partial. rewrite <- (map_id (peer_reputation g)) at 1.
    apply map_ext. intros [k r]. reflexivity.
  - reflexivity.
  - rewrite app_nil_r. reflexivity.
  - split; [|exact H3].
    rewrite H1. unfold sybil_partial. apply map_ext_in. intros [k r] Hin.
    cbv beta iota. simpl app.
    assert (Hi : In (ip_address r) (map fst (ip_to_peers g)))
      by (apply Hips; exists (k, r); split; [exact Hin|reflexivity]).
    apply existsb_eqb_in in Hi. rewrite Hi. reflexivity.
Qed.

Lemma sybil_filter_events now g ip :
  filter (sybil_event_for ip) (flat_map (sybil_events now g) (ip_to_peers g))
  = flat_map (fun e => if String.eqb (fst e) ip then sybil_events now g e else [])
      (ip_to_peers g).
Proof.
  rewrite filter_flat_map. apply flat_map_ext. intros [ip' pids'].
  unfold sybil_events. cbv beta iota zeta.
  destruct (Nat.leb 5 _); simpl; [|destruct (String.eqb ip' ip); reflexivity].
  unfold sybil_event_for. simpl. destruct (String.eqb ip' ip); reflexivity.
Qed.

(** C4: a Sybil pass emits exactly one [WARNING] Sybil event about an
    address and halves the trust of its low-trust peers when at least five
    registered peers of that address have trust below the minimum; with
    fewer than five (four, say) it emits no event about the address and
    changes no trust score of its peers. *)
Theorem sybil_detection_threshold (now : Z) (g : SecurityGuardian) (ip : string) :
  NoDup (map fst (peer_reputation g)) ->
  ((5 <= length (suspicious_at g ip))%nat ->
     (exists new e,
        security_events (detect_sybil_attacks now g) = security_events g ++ new
        /\ filter (sybil_event_for ip) new = [e]
        /\ Event.severity e = WARNING /\ Event.event_type e = SYBIL)
     /\ (forall pid r, In (pid, r) (suspicious_at g ip) ->
           lookup pid (peer_reputation (detect_sybil_attacks now g))
           = Some (set_trust (trust_score r * 0.5) r)))
  /\ ((length (suspicious_at g ip) < 5)%nat ->
     (exists new,
        security_events (detect_sybil_attacks now g) = security_events g ++ new
        /\ filter (sybil_event_for ip) new = [])
     /\ (forall pid r, lookup pid (peer_reputation g) = Some r -> ip_address r = ip ->
           lookup pid (peer_reputation (detect_sybil_attacks now g)) = Some r)).
Proof.
  intros Hnd. destruct (detect_sybil_spec now g Hnd) as [Hp He].
  destruct (ip_to_peers_groups g Hnd) as [Hk [_ Hips]].
  rewrite Hp, He. split.
  - intros H5.
    assert (Hex : exists k0 r0, In (k0, r0) (suspicious_at g ip)).
    { destruct (suspicious_at g ip) as [|[k0 r0] S]; [simpl in H5; lia|].
      exists k0, r0. left. reflexivity. }
    apply Nat.leb_le in H5. destruct Hex as [k0 [r0 Hin0]].
    unfold suspicious_at in Hin0. apply filter_In in Hin0. destruct Hin0 as [Hin0 Hc].
    apply andb_true_iff in Hc. destruct Hc as [Hc _]. apply String.eqb_eq in Hc.
    assert (Hipg : In ip (map fst (ip_to_peers g)))
      by (apply Hips; exists (k0, r0); split; [exact Hin0|exact Hc]).
    apply in_map_iff in Hipg. destruct Hipg as [[ip1 pids] [E1 Hg]]. simpl in E1; subst ip1.
    pose proof (lookup_of_in ip pids _ Hk Hg) as Hl.
    split.
    + eexists _, _. split; [reflexivity|].
      rewrite sybil_filter_events, (flat_map_key_unique _ ip pids _ Hk Hl).
      unfold sybil_events. cbv beta iota zeta. rewrite H5.
      split; [reflexivity|split; reflexivity].
    + intros pid r Hin.
      unfold suspicious_at in Hin. apply filter_In in Hin. destruct Hin as [Hin Hc'].
      apply andb_true_iff in Hc'. destruct Hc' as [Hi Ht]. simpl in Hi, Ht. apply String.eqb_eq in Hi.
      rewrite (lookup_map_vals pid (sybil_final g)), (lookup_of_in pid r _ Hnd Hin).
      simpl. unfold sybil_final. rewrite Ht, Hi, H5. reflexivity.
  - intros H4. apply Nat.leb_gt in H4. split.
    + eexists. split; [reflexivity|].
      rewrite sybil_filter_events.
      destruct (lookup ip (ip_to_peers g)) as [pids|] eqn:Hl.
      * rewrite (flat_map_key_unique _ ip pids _ Hk Hl).
        unfold sybil_events. cbv beta iota zeta. rewrite H4. reflexivity.
      * apply flat_map_key_none. intros Hin. apply in_map_iff in Hin.
        destruct Hin as [[ip1 pids] [E1 Hg]]. simpl in E1; subst ip1.
        rewrite (lookup_of_in ip pids _ Hk Hg) in Hl. discriminate.
    + intros pid r Hl Hi.
      rewrite (lookup_map_vals pid (sybil_final g)), Hl. simpl.
      unfold sybil_final. rewrite Hi, H4, andb_false_r. reflexivity.
Qed.

End Sybil.

(* ------------------------------------------------------------------ *)
(** ** Further properties of the guardian's operations *)

Section GuardianOps.
Import Guardian Inputs.

Lemma lookup_assign_eq {V} (k : string) (v : V) d : lookup k (assign k v d) = Some v.
Proof.
  induction d as [|[k' v'] d IH]; simpl; [rewrite String.eqb_refl; reflexivity|].
  destruct (String.eqb k k') eqn:E; simpl.
  - rewrite E. reflexivity.
  - rewrite E. exact IH.
Qed.

Lemma lookup_assign_neq {V} (k k2 : string) (v : V) d :
  k2 <> k -> lookup k2 (assign k v d) = lookup k2 d.
Proof.
  intros Hne. induction d as [|[k' v'] d IH]; simpl.
  - destruct (String.eqb k2 k) eqn:E; [apply String.eqb_eq in E; congruence|reflexivity].
  - destruct (String.eqb k k') eqn:E; simpl.
    + apply String.eqb_eq in E; subst k'.
      destruct (String.eqb k2 k) eqn:E2; [apply String.eqb_eq in E2; congruence|reflexivity].
    + destruct (String.eqb k2 k'); [reflexivity|exact IH].
Qed.

Lemma lookup_none_notin {V} (k : string) (d : list (string * V)) :
  lookup k d = None -> ~ In k (map fst d).
Proof.
  induction d as [|[k' v'] d IH]; simpl; intros H; [intros []|].
  destruct (String.eqb k k') eqn:E; [discriminate|].
  intros [E'|Hin]; [subst; rewrite String.eqb_refl in E; discriminate|exact (IH H Hin)].
Qed.

(** [register_peer] (lines 250-254): a known identifier leaves the guardian
    unchanged (the address is not updated); a new identifier is appended
    to the registry with the dataclass defaults: trust 0.5, zero counters,
    first and last seen now, not blocked. *)
Theorem register_peer_spec (now : Z) (pid ip : string) (g : SecurityGuardian) :
  (forall r, lookup pid (peer_reputation g) = Some r -> register_peer now pid ip g = g)
  /\ (lookup pid (peer_reputation g) = None ->
      map fst (peer_reputation (register_peer now pid ip g))
        = map fst (peer_reputation g) ++ [pid]
      /\ lookup pid (peer_reputation (register_peer now pid ip g))
         = Some (mkPeerReputation pid ip 0.5 0 0 0 0 now now false "" None)
      /\ (forall k, k <> pid ->
            lookup k (peer_reputation (register_peer now pid ip g))
            = lookup k (peer_reputation g))).
Proof.
  unfold register_peer. split.
  - intros r Hl. rewrite Hl. reflexivity.
  - intros Hl. rewrite Hl. simpl.
    rewrite (assign_fresh pid _ _ (lookup_none_notin pid _ Hl)).
    split; [rewrite map_app; reflexivity|split].
    + rewrite <- (assign_fresh pid _ _ (lookup_none_notin pid _ Hl)).
      apply lookup_assign_eq.
    + intros k Hk. rewrite <- (assign_fresh pid _ _ (lookup_none_notin pid _ Hl)).
      apply lookup_assign_neq. exact Hk.
Qed.

(** [record_successful_block] (lines 256-260): for a registered peer it
    increments [successful_blocks] by one and sets [last_seen] to now,
    leaving every other field and every other peer unchanged; for an
    unknown identifier it does nothing. *)
Theorem record_successful_block_effect (now : Z) (pid : string) (g : SecurityGuardian) :
  (forall r, lookup pid (peer_reputation g) = Some r ->
     lookup pid (peer_reputation (record_successful_block now pid g))
     = Some (mkPeerReputation (peer_id r) (ip_address r) (trust_score r)
               (S (successful_blocks r)) (failed_validations r) (dos_attempts r)
               (sybil_connections r) (first_seen r) now (blocked r)
               (block_reason r) (block_until r))
     /\ (forall k, k <> pid ->
           lookup k (peer_reputation (record_successful_block now pid g))
           = lookup k (peer_reputation g)))
  /\ (lookup pid (peer_reputation g) = None -> record_successful_block now pid g = g).
Proof.
  unfold record_successful_block. split.
  - intros r Hl. rewrite Hl. simpl. split.
    + rewrite lookup_modify_eq, Hl. reflexivity.
    + intros k Hk. apply lookup_modify_neq. exact Hk.
  - intros Hl. rewrite Hl. reflexivity.
Qed.

(** [is_peer_trusted] (lines 273-279) under the two record operations
    (lines 256-266): a success never changes whether a peer is trusted, and
    a failure, which only lowers a non-negative trust score, never turns an
    untrusted peer into a trusted one. *)
Theorem validation_records_and_trust (now : Z) (pid q : string) (g : SecurityGuardian) :
  trust_ok g ->
  is_peer_trusted q (record_successful_block now pid g) = is_peer_trusted q g
  /\ (is_peer_trusted q (record_failed_validation pid g) = true ->
      is_peer_trusted q g = true).
Proof.
  intros Hok. split.
  - unfold record_successful_block. destruct (lookup pid (peer_reputation g)) as [r0|];
      [|reflexivity].
    unfold is_peer_trusted. simpl.
    destruct (String.eqb q pid) eqn:E.
    + apply String.eqb_eq in E; subst q. rewrite lookup_modify_eq.
      destruct (lookup pid (peer_reputation g)); reflexivity.
    + rewrite lookup_modify_neq; [reflexivity|].
      intros ->. rewrite String.eqb_refl in E. discriminate.
  - unfold record_failed_validation. destruct (lookup pid (peer_reputation g)) as [r0|];
      [|exact (fun H => H)].
    unfold is_peer_trusted. simpl.
    destruct (String.eqb q pid) eqn:E.
    + apply String.eqb_eq in E; subst q. rewrite lookup_modify_eq.
      destruct (lookup pid (peer_reputation g)) as [r|] eqn:Hl; [|discriminate]. simpl.
      intros H. apply andb_true_iff in H as [Hb Ht]. rewrite Hb. simpl.
      apply Qle_bool_iff in Ht. apply Qle_bool_iff.
      destruct (Hok _ _ (lookup_in _ _ _ Hl)) as [H0 _]. lra.
    + rewrite lookup_modify_neq; [exact (fun H => H)|].
      intros ->. rewrite String.eqb_refl in E. discriminate.
Qed.

(** [record_connection_attempt] (lines 281-283): the attempt time is
    appended to the address's list (a new address starts an empty one);
    the lists of other addresses are unchanged. *)
Theorem record_connection_attempt_lookup (now : Z) (ip : string) (g : SecurityGuardian) :
  lookup ip (connection_attempts (record_connection_attempt now ip g))
  = Some (match lookup ip (connection_attempts g) with Some l => l | None => [] end
          ++ [now])
  /\ (forall ip', ip' <> ip ->
        lookup ip' (connection_attempts (record_connection_attempt now ip g))
        = lookup ip' (connection_attempts g)).
Proof.
  unfold record_connection_attempt. simpl. split.
  - apply lookup_assign_eq.
  - intros ip' H. apply lookup_assign_neq. exact H.
Qed.

(** [cleanup_expired_blocks] (lines 242-248): only the event log changes
    (in particular [blocked_ips] is left as it is); an event is kept
    exactly when it is less than 30 days old, and a second cleanup at the
    same time changes nothing. *)
Theorem cleanup_expired_blocks_spec (now : Z) (g : SecurityGuardian) :
  peer_reputation (cleanup_expired_blocks now g) = peer_reputation g
  /\ blocked_ips (cleanup_expired_blocks now g) = blocked_ips g
  /\ connection_attempts (cleanup_expired_blocks now g) = connection_attempts g
  /\ (forall e, In e (security_events (cleanup_expired_blocks now g))
               <-> In e (security_events g)
                   /\ (now - Event.timestamp e < 30 * 86400 * 1000000)%Z)
  /\ cleanup_expired_blocks now (cleanup_expired_blocks now g)
     = cleanup_expired_blocks now g.
Proof.
  split; [reflexivity|split; [reflexivity|split; [reflexivity|split]]].
  - intros e. simpl. rewrite filter_In, Z.ltb_lt. reflexivity.
  - unfold cleanup_expired_blocks, set_events. simpl. f_equal.
    induction (security_events g) as [|e es IH]; simpl; [reflexivity|].
    destruct (_ <? _)%Z eqn:E; simpl;
      [rewrite E, IH; reflexivity|exact IH].
Qed.

Lemma peer_stable_refl r : peer_stable r r.
Proof. unfold peer_stable. repeat split; auto. Qed.

Lemma peer_stable_trans r1 r2 r3 :
  peer_stable r1 r2 -> peer_stable r2 r3 -> peer_stable r1 r3.
Proof.
  unfold peer_stable. intros (A1 & B1 & C1 & D1 & E1 & F1 & G1 & H1)
    (A2 & B2 & C2 & D2 & E2 & F2 & G2 & H2).
  repeat split; try congruence; try lia. auto.
Qed.

Lemma stable_F2_refl ps : Forall2 stable_entry ps ps.
Proof.
  induction ps as [|e ps IH]; constructor; [|exact IH].
  split; [reflexivity|apply peer_stable_refl].
Qed.

Lemma stable_F2_trans ps1 ps2 ps3 :
  Forall2 stable_entry ps1 ps2 -> Forall2 stable_entry ps2 ps3 ->
  Forall2 stable_entry ps1 ps3.
Proof.
  intros H12. revert ps3. induction H12 as [|a b l1 l2 Hab H IH]; intros ps3 H23;
    inversion H23 as [|b' c l2' l3 Hbc H']; subst; constructor.
  - destruct Hab as [E1 S1], Hbc as [E2 S2]. split; [congruence|].
    exact (peer_stable_trans _ _ _ S1 S2).
  - apply IH, H'.
Qed.

Lemma stable_F2_keys ps ps' : Forall2 stable_entry ps ps' -> map fst ps' = map fst ps.
Proof.
  induction 1 as [|a b l l' [E _] _ IH]; simpl; [reflexivity|]. rewrite E, IH. reflexivity.
Qed.

Lemma stable_F2_lookup ps ps' k r :
  Forall2 stable_entry ps ps' -> lookup k ps = Some r ->
  exists r', lookup k ps' = Some r' /\ peer_stable r r'.
Proof.
  induction 1 as [|[ka ra] [kb rb] l l' [E S] _ IH]; simpl; [discriminate|].
  simpl in E, S. subst kb. destruct (String.eqb k ka).
  - intros H. inversion H; subst. exists rb. split; [reflexivity|exact S].
  - exact IH.
Qed.

Lemma stable_map (f : PeerReputation -> PeerReputation) ps :
  (forall r, peer_stable r (f r)) ->
  Forall2 stable_entry ps (map (fun '(k, r) => (k, f r)) ps).
Proof.
  intros Hf. induction ps as [|[k r] ps IH]; simpl; constructor; [|exact IH].
  split; [reflexivity|apply Hf].
Qed.

Lemma stable_modify (f : PeerReputation -> PeerReputation) pid ps :
  (forall r, peer_stable r (f r)) -> Forall2 stable_entry ps (modify pid f ps).
Proof.
  intros Hf. induction ps as [|[k r] ps IH]; simpl; constructor; [|exact IH].
  destruct (String.eqb pid k); (split; [reflexivity|]); [apply Hf|apply peer_stable_refl].
Qed.

Lemma set_trust_stable t r : peer_stable r (set_trust t r).
Proof. unfold peer_stable. simpl. repeat split; auto. Qed.

Lemma scale_fold_stable (c : Q) (l : list string) g :
  Forall2 stable_entry (peer_reputation g)
    (peer_reputation (fold_left (fun g pid => scale_trust c pid g) l g)).
Proof.
  revert g. induction l as [|p l IH]; intros g; simpl; [apply stable_F2_refl|].
  eapply stable_F2_trans; [|apply IH].
  apply stable_modify. intros r. apply set_trust_stable.
Qed.

Lemma sybil_stable now g :
  Forall2 stable_entry (peer_reputation g) (peer_reputation (detect_sybil_attacks now g)).
Proof.
  unfold detect_sybil_attacks. generalize (ip_to_peers g). intros l.
  revert g. induction l as [|[ip peers] l IH]; intros g; simpl; [apply stable_F2_refl|].
  eapply stable_F2_trans; [|apply IH]. unfold sybil_step.
  match goal with |- context [if ?c then _ else _] => destruct c end;
    [|apply stable_F2_refl].
  match goal with |- context [fold_left _ ?l ?st] => exact (scale_fold_stable 0.5 l st) end.
Qed.

Lemma eclipse_stable now ps : Forall2 stable_entry ps (fst (eclipse_scan now ps)).
Proof.
  induction ps as [|[pid r] ps IH]; simpl; [constructor|].
  destruct (eclipse_scan now ps) as [ps' es]. simpl in IH.
  destruct (_ && _); simpl; constructor; try exact IH;
    (split; [reflexivity|]); [apply set_trust_stable|apply peer_stable_refl].
Qed.

Lemma vdf_stable now ps : Forall2 stable_entry ps (fst (vdf_scan now ps)).
Proof.
  induction ps as [|[pid r] ps IH]; simpl; [constructor|].
  destruct (vdf_scan now ps) as [ps' es]. simpl in IH.
  destruct (Nat.ltb 10 _); [destruct (Qltb _ 1700)|]; simpl; constructor; try exact IH;
    (split; [reflexivity|]); first [apply set_trust_stable|apply peer_stable_refl].
Qed.

Lemma reputation_update_stable now r : peer_stable r (reputation_update now r).
Proof.
  unfold reputation_update. destruct (blocked r) eqn:Eb.
  - destruct (block_until r) as [bu|]; [destruct (bu <? now)%Z|];
      try apply peer_stable_refl.
    unfold peer_stable. simpl. repeat split; auto; intros H; rewrite Eb in H; discriminate.
  - destruct (Qltb 24 _); apply set_trust_stable.
Qed.

Lemma update_stable now g :
  Forall2 stable_entry (peer_reputation g) (peer_reputation (update_peer_reputation now g)).
Proof. apply stable_map. apply reputation_update_stable. Qed.

Lemma eclipse_peers now g :
  peer_reputation (detect_eclipse_attacks now g) = fst (eclipse_scan now (peer_reputation g)).
Proof. unfold detect_eclipse_attacks. destruct (eclipse_scan _ _); reflexivity. Qed.

Lemma vdf_peers now g :
  peer_reputation (detect_vdf_manipulation now g) = fst (vdf_scan now (peer_reputation g)).
Proof. unfold detect_vdf_manipulation. destruct (vdf_scan _ _); reflexivity. Qed.

(** One operation either registers a fresh identifier at the end of the
    registry or evolves every record in place. *)
Lemma apply_op_registry g o :
  (exists pid now ip, ~ In pid (map fst (peer_reputation g))
     /\ peer_reputation (apply_op g o)
        = peer_reputation g ++ [(pid, new_PeerReputation now pid ip)])
  \/ Forall2 stable_entry (peer_reputation g) (peer_reputation (apply_op g o)).
Proof.
  destruct o; simpl.
  - unfold register_peer. destruct (lookup pid _) eqn:Hl; [right; apply stable_F2_refl|].
    left. exists pid, now, ip. split; [exact (lookup_none_notin _ _ Hl)|].
    simpl. apply assign_fresh, lookup_none_notin, Hl.
  - right. unfold record_successful_block. destruct (lookup pid _); [|apply stable_F2_refl].
    apply stable_modify. intros r. unfold peer_stable. simpl. repeat split; auto.
  - right. unfold record_failed_validation. destruct (lookup pid _); [|apply stable_F2_refl].
    apply stable_modify. intros r. unfold peer_stable. simpl. repeat split; auto.
  - right. apply stable_F2_refl.
  - right. apply stable_F2_refl.
  - right. unfold detect_dos_attacks. rewrite dos_fold_peers. apply stable_F2_refl.
  - right. apply sybil_stable.
  - right. rewrite eclipse_peers. apply eclipse_stable.
  - right. rewrite vdf_peers. apply vdf_stable.
  - right. apply update_stable.
  - right. apply stable_F2_refl.
  - right. unfold security_cycle.
    change (peer_reputation (cleanup_expired_blocks now ?x)) with (peer_reputation x).
    eapply stable_F2_trans; [|apply update_stable].
    eapply stable_F2_trans; [|rewrite vdf_peers; apply vdf_stable].
    eapply stable_F2_trans; [|rewrite eclipse_peers; apply eclipse_stable].
    eapply stable_F2_trans; [|apply sybil_stable].
    unfold detect_dos_attacks. rewrite dos_fold_peers. apply stable_F2_refl.
Qed.

Lemma fresh_F2 E B :
  Forall2 stable_entry E B ->
  Forall (fun e => exists now ip, peer_stable (new_PeerReputation now (fst e) ip) (snd e)) E ->
  Forall (fun e => exists now ip, peer_stable (new_PeerReputation now (fst e) ip) (snd e)) B.
Proof.
  induction 1 as [|a b l l' [E S] _ IH]; intros HE; [constructor|].
  inversion HE as [|? ? [now [ip Ha]] HE']; subst. constructor; [|apply IH, HE'].
  exists now, ip. rewrite E. exact (peer_stable_trans _ _ _ Ha S).
Qed.

Lemma grows_apply_op ps g o :
  grows ps (peer_reputation g) -> grows ps (peer_reputation (apply_op g o)).
Proof.
  intros (A & E & Hps & HA & HE).
  destruct (apply_op_registry g o) as [(pid & now & ip & _ & Hr)|HF].
  - rewrite Hr, Hps. exists A, (E ++ [(pid, new_PeerReputation now pid ip)]).
    split; [rewrite app_assoc; reflexivity|split; [exact HA|]].
    apply Forall_app. split; [exact HE|]. constructor; [|constructor].
    exists now, ip. apply peer_stable_refl.
  - rewrite Hps in HF. apply Forall2_app_inv_l in HF as (B1 & B2 & H1 & H2 & ->).
    exists B1, B2. split; [reflexivity|split].
    + exact (stable_F2_trans _ _ _ HA H1).
    + exact (fresh_F2 _ _ H2 HE).
Qed.

Lemma grows_run_ops g os : grows (peer_reputation g) (peer_reputation (run_ops g os)).
Proof.
  unfold run_ops.
  assert (H0 : grows (peer_reputation g) (peer_reputation g)).
  { exists (peer_reputation g), []. rewrite app_nil_r.
    split; [reflexivity|split; [apply stable_F2_refl|constructor]]. }
  assert (Hgen : forall os g0, grows (peer_reputation g) (peer_reputation g0) ->
            grows (peer_reputation g) (peer_reputation (fold_left apply_op os g0))).
  { intros os0. induction os0 as [|o os0 IH]; intros g0 H; simpl;
      [exact H|apply IH, grows_apply_op, H]. }
  apply Hgen, H0.
Qed.

Lemma nodup_run_ops g os :
  NoDup (map fst (peer_reputation g)) -> NoDup (map fst (peer_reputation (run_ops g os))).
Proof.
  unfold run_ops. revert g. induction os as [|o os IH]; intros g H; simpl; [exact H|].
  apply IH. destruct (apply_op_registry g o) as [(pid & now & ip & Hn & Hr)|HF].
  - rewrite Hr, map_app. simpl. apply NoDup_app; [exact H|constructor; [intros []|constructor]|].
    intros x Hx [<-|[]]. exact (Hn Hx).
  - rewrite (stable_F2_keys _ _ HF). exact H.
Qed.

Lemma lookup_app_some {V} (k : string) (v : V) A B :
  lookup k A = Some v -> lookup k (A ++ B) = Some v.
Proof.
  induction A as [|[k' v'] A IH]; simpl; [discriminate|].
  destruct (String.eqb k k'); [exact (fun H => H)|exact IH].
Qed.

(** No operation removes or reorders a registered peer (lines 250-279 and
    the passes of [monitor_network], lines 108-248): after any sequence of
    operations every registered identifier is still registered, at the
    same place, with the same identity, address, first-seen time, DoS and
    Sybil counters, validation counters no smaller, and still unblocked if
    it was; the registry never holds two records under one identifier. *)
Theorem registry_persists (g : SecurityGuardian) (os : list op) :
  (exists extra, map fst (peer_reputation (run_ops g os))
                 = map fst (peer_reputation g) ++ extra)
  /\ (forall k r, lookup k (peer_reputation g) = Some r ->
        exists r', lookup k (peer_reputation (run_ops g os)) = Some r' /\ peer_stable r r')
  /\ (NoDup (map fst (peer_reputation g)) ->
       NoDup (map fst (peer_reputation (run_ops g os)))).
Proof.
  destruct (grows_run_ops g os) as (A & E & Hps & HA & _).
  split; [|split].
  - exists (map fst E). rewrite Hps, map_app, (stable_F2_keys _ _ HA). reflexivity.
  - intros k r Hl. destruct (stable_F2_lookup _ _ k r HA Hl) as [r' [Hl' S]].
    exists r'. rewrite Hps. split; [apply lookup_app_some, Hl'|exact S].
  - apply nodup_run_ops.
Qed.

Lemma config_apply_op g o : min_trust_score (apply_op g o) = min_trust_score g.
Proof.
  assert (Hdos : forall now g, min_trust_score (detect_dos_attacks now g) = min_trust_score g).
  { intros now g0. unfold detect_dos_attacks. generalize (connection_attempts g0).
    intros l. revert g0. induction l as [|[ip ts] l IH]; intros g0; simpl; [reflexivity|].
    rewrite IH. unfold dos_step. destruct (_ <? _)%Z; reflexivity. }
  assert (Hsc : forall (c : Q) l g,
             min_trust_score (fold_left (fun g pid => scale_trust c pid g) l g)
             = min_trust_score g).
  { intros c l. induction l as [|p l IH]; intros g0; simpl; [reflexivity|].
    rewrite IH. reflexivity. }
  assert (Hsyb : forall now g, min_trust_score (detect_sybil_attacks now g) = min_trust_score g).
  { intros now g0. unfold detect_sybil_attacks. generalize (ip_to_peers g0).
    intros l. revert g0. induction l as [|[ip pids] l IH]; intros g0; simpl; [reflexivity|].
    rewrite IH. unfold sybil_step.
    match goal with |- context [if ?c then _ else _] => destruct c end; [|reflexivity].
    rewrite Hsc. reflexivity. }
  assert (Hecl : forall now g, min_trust_score (detect_eclipse_attacks now g) = min_trust_score g)
    by (intros now g0; unfold detect_eclipse_attacks; destruct (eclipse_scan _ _); reflexivity).
  assert (Hvdf : forall now g, min_trust_score (detect_vdf_manipulation now g) = min_trust_score g)
    by (intros now g0; unfold detect_vdf_manipulation; destruct (vdf_scan _ _); reflexivity).
  destruct o; simpl.
  - unfold register_peer. destruct (lookup _ _); reflexivity.
  - unfold record_successful_block. destruct (lookup _ _); reflexivity.
  - unfold record_failed_validation. destruct (lookup _ _); reflexivity.
  - reflexivity.
  - reflexivity.
  - apply Hdos.
  - apply Hsyb.
  - apply Hecl.
  - apply Hvdf.
  - reflexivity.
  - reflexivity.
  - unfold security_cycle. simpl. rewrite Hvdf, Hecl, Hsyb, Hdos. reflexivity.
Qed.

Lemma config_run_ops g os : min_trust_score (run_ops g os) = min_trust_score g.
Proof.
  unfold run_ops. revert g. induction os as [|o os IH]; intros g; simpl; [reflexivity|].
  rewrite IH. apply config_apply_op.
Qed.

(** Every record of a guardian built from [SecurityGuardian(config)] by
    any sequence of operations comes from [register_peer]. *)
Lemma fresh_run_invariant thr m d os :
  let g := run_ops (new_SecurityGuardian thr m d) os in
  (forall k r, In (k, r) (peer_reputation g) ->
     peer_id r = k /\ blocked r = false /\ dos_attempts r = 0%nat
     /\ sybil_connections r = 0%nat)
  /\ NoDup (map fst (peer_reputation g))
  /\ min_trust_score g = m.
Proof.
  intros g. split; [|split].
  - destruct (grows_run_ops (new_SecurityGuardian thr m d) os) as (A & E & Hps & HA & HE).
    inversion HA; subst A. simpl in Hps. intros k r Hin. unfold g in Hin.
    rewrite Hps in Hin. rewrite Forall_forall in HE.
    destruct (HE (k, r) Hin) as (now & ip & (Hid & _ & _ & Hd & Hs & _ & _ & Hb)).
    simpl in *. repeat split; [exact Hid|apply Hb; reflexivity|exact Hd|exact Hs].
  - apply nodup_run_ops. constructor.
  - unfold g. rewrite config_run_ops. reflexivity.
Qed.

(** Nothing in the guardian ever blocks a peer or counts a DoS attempt or
    a Sybil connection against it (no assignment to [blocked],
    [dos_attempts] or [sybil_connections] exists outside the dataclass
    defaults of [register_peer], line 253): along any sequence of
    operations from [SecurityGuardian(config)] every record is unblocked
    with both counters at 0, so [is_peer_trusted] (lines 273-279) reduces
    to being registered with [trust_score >= min_trust_score]. *)
Theorem fresh_guardian_never_blocks (thr : Z) (m : Q) (d : Z) (os : list op) :
  let g := run_ops (new_SecurityGuardian thr m d) os in
  (forall k r, In (k, r) (peer_reputation g) ->
     peer_id r = k /\ blocked r = false /\ dos_attempts r = 0%nat
     /\ sybil_connections r = 0%nat)
  /\ (forall q, is_peer_trusted q g
              = match lookup q (peer_reputation g) with
                | Some r => Qle_bool m (trust_score r)
                | None => false
                end).
Proof.
  intros g. destruct (fresh_run_invariant thr m d os) as [H1 [_ Hm]].
  split; [exact H1|]. intros q. unfold is_peer_trusted. fold g in Hm. rewrite Hm.
  destruct (lookup q (peer_reputation g)) as [r|] eqn:Hl; [|reflexivity].
  destruct (H1 _ _ (lookup_in _ _ _ Hl)) as [_ [Hb _]]. rewrite Hb. reflexivity.
Qed.

Lemma filter_count_split {A} (f : A -> bool) (l : list A) :
  (length (filter (fun x => negb (f x)) l) + length (filter f l) = length l)%nat.
Proof. induction l as [|x l IH]; simpl; [reflexivity|]. destruct (f x); simpl; lia. Qed.

Lemma filter_length_le' {A} (f : A -> bool) (l : list A) :
  (length (filter f l) <= length l)%nat.
Proof. induction l as [|x l IH]; simpl; [lia|]. destruct (f x); simpl; lia. Qed.

(** [log_security_status] (lines 285-301): "Trusted Peers" and "Blocked
    Peers" partition the registry (the first counts every unblocked peer,
    whatever its trust score), and "Recent Threats" never exceeds "Total
    Events"; for a guardian built from [SecurityGuardian(config)] by any
    operations, no peer is reported blocked and every registered peer is
    reported trusted. *)
Theorem security_status_counts (now : Z) (g : SecurityGuardian) :
  (trusted_peers (log_security_status now g) + blocked_peers (log_security_status now g)
   = length (peer_reputation g))%nat
  /\ (recent_threats (log_security_status now g) <= total_events (log_security_status now g))%nat
  /\ (forall thr m d os,
        let g' := run_ops (new_SecurityGuardian thr m d) os in
        blocked_peers (log_security_status now g') = 0%nat
        /\ trusted_peers (log_security_status now g') = length (peer_reputation g')).
Proof.
  split; [|split].
  - simpl. apply (filter_count_split (fun e => blocked (snd e))).
  - simpl. apply filter_length_le'.
  - intros thr m d os g'. destruct (fresh_run_invariant thr m d os) as [H1 _].
    fold g' in H1. simpl.
    assert (H0 : filter (fun e => blocked (snd e)) (peer_reputation g') = []).
    { assert (Hall : forall e, In e (peer_reputation g') -> blocked (snd e) = false)
        by (intros [k r] Hin; exact (proj1 (proj2 (H1 k r Hin)))).
      clear H1. induction (peer_reputation g') as [|e l IH]; simpl; [reflexivity|].
      rewrite (Hall e (or_introl eq_refl)). apply IH.
      intros e' He'. apply Hall. right. exact He'. }
    pose proof (filter_count_split (fun e => blocked (snd e)) (peer_reputation g')) as Hs.
    rewrite H0 in Hs. simpl in Hs. split; [rewrite H0; reflexivity|lia].
Qed.

End GuardianOps.

(* ------------------------------------------------------------------ *)
(** ** Further properties of the detection passes *)

Section GuardianPasses.
Import Guardian Inputs.

Lemma dos_step_attempts now st ip ts :
  connection_attempts (dos_step now st (ip, ts))
  = assign ip (dos_recent now ts) (connection_attempts st).
Proof. unfold dos_step. destruct (_ <? _)%Z; reflexivity. Qed.

Lemma assign_app_notin {V} (k : string) (v : V) A B :
  ~ In k (map fst A) -> assign k v (A ++ B) = A ++ assign k v B.
Proof.
  induction A as [|[k' v'] A IH]; simpl; intros Hn; [reflexivity|].
  destruct (String.eqb k k') eqn:E.
  - apply String.eqb_eq in E. subst. exfalso. apply Hn. left. reflexivity.
  - rewrite IH; [reflexivity|]. intros H. apply Hn. right. exact H.
Qed.

Lemma dos_fold_attempts now (L pre : list (string * list Z)) st :
  NoDup (map fst (pre ++ L)) ->
  connection_attempts st = map (fun '(ip, ts) => (ip, dos_recent now ts)) pre ++ L ->
  connection_attempts (fold_left (dos_step now) L st)
  = map (fun '(ip, ts) => (ip, dos_recent now ts)) (pre ++ L).
Proof.
  revert pre st. induction L as [|[ip ts] L IH]; intros pre st Hnd Hst; cbn [fold_left].
  - rewrite Hst, !app_nil_r. reflexivity.
  - replace (pre ++ (ip, ts) :: L) with ((pre ++ [(ip, ts)]) ++ L)
      by (rewrite <- app_assoc; reflexivity).
    apply IH.
    + rewrite <- app_assoc. exact Hnd.
    + rewrite dos_step_attempts, Hst. rewrite assign_app_notin.
      * simpl. rewrite String.eqb_refl, map_app, <- app_assoc. reflexivity.
      * rewrite map_map. intros Hin.
        rewrite map_app in Hnd. simpl in Hnd. apply (NoDup_remove_2 _ _ _ Hnd).
        apply in_or_app. left.
        replace (map (fun x => fst (let '(ip0, ts0) := x in (ip0, dos_recent now ts0))) pre)
          with (map fst pre) in Hin; [exact Hin|].
        apply map_ext. intros [a b]. reflexivity.
Qed.

Lemma dos_pass_attempts now g :
  NoDup (map fst (connection_attempts g)) ->
  connection_attempts (detect_dos_attacks now g)
  = map (fun '(ip, ts) => (ip, dos_recent now ts)) (connection_attempts g).
Proof.
  intros Hnd. unfold detect_dos_attacks.
  apply (dos_fold_attempts now (connection_attempts g) [] g Hnd). reflexivity.
Qed.

(** [detect_dos_attacks] (lines 108-115): no address is ever dropped from
    [connection_attempts], even when its list becomes empty; each list
    keeps, in order, exactly the timestamps less than 60 seconds older
    than now (timestamps in the future included). *)
Theorem dos_pass_prunes_attempts (now : Z) (g : SecurityGuardian) :
  NoDup (map fst (connection_attempts g)) ->
  connection_attempts (detect_dos_attacks now g)
  = map (fun '(ip, ts) => (ip, filter (fun t => (now - t <? 60 * 1000000)%Z) ts))
      (connection_attempts g).
Proof.
  intros Hnd. rewrite (dos_pass_attempts now g Hnd). apply map_ext. intros [ip ts].
  f_equal. unfold dos_recent. apply filter_ext. intros t. apply dos_window_code.
Qed.




Lemma eclipse_scan_spec now ps :
  fst (eclipse_scan now ps)
  = map (fun '(k, r) => (k, if eclipse_flag r then set_trust (trust_score r * 0.8) r else r)) ps
  /\ map Event.peer_id (snd (eclipse_scan now ps))
     = map fst (filter (fun e => eclipse_flag (snd e)) ps)
  /\ Forall (fun e => Event.event_type e = ECLIPSE /\ Event.severity e = CAUTION)
       (snd (eclipse_scan now ps)).
Proof.
  unfold eclipse_flag.
  induction ps as [|[pid r] ps IH]; simpl; [split; [reflexivity|split; constructor]|].
  destruct (eclipse_scan now ps) as [ps' es]. simpl in IH. destruct IH as [H1 [H2 H3]].
  destruct (Nat.ltb 1000 (successful_blocks r) && Nat.eqb (failed_validations r) 0);
    simpl; rewrite H1; (split; [reflexivity|]).
  - rewrite H2. split; [reflexivity|constructor; [split; reflexivity|exact H3]].
  - split; [exact H2|exact H3].
Qed.

(** [detect_eclipse_attacks] (lines 164-183): exactly the peers with more
    than 1000 successes and no failure have their trust multiplied by
    0.8, all other records are unchanged, and one [CAUTION] eclipse event
    per flagged peer is appended, in registry order. *)
Theorem eclipse_pass_spec (now : Z) (g : SecurityGuardian) :
  peer_reputation (detect_eclipse_attacks now g)
  = map (fun '(k, r) => (k, if eclipse_flag r then set_trust (trust_score r * 0.8) r else r))
      (peer_reputation g)
  /\ exists new, security_events (detect_eclipse_attacks now g) = security_events g ++ new
     /\ map Event.peer_id new = map fst (filter (fun e => eclipse_flag (snd e)) (peer_reputation g))
     /\ Forall (fun e => Event.event_type e = ECLIPSE /\ Event.severity e = CAUTION) new.
Proof.
  destruct (eclipse_scan_spec now (peer_reputation g)) as [H1 [H2 H3]].
  unfold detect_eclipse_attacks. destruct (eclipse_scan now (peer_reputation g)) as [ps es].
  simpl in *. split; [exact H1|]. exists es. split; [reflexivity|split; assumption].
Qed.

Lemma vdf_time_code (d : Z) (n : nat) :
  (0 < n)%nat -> Qltb (total_seconds d / qnat n) 1700 = (d <? 1700 * 1000000 * Z.of_nat n)%Z.
Proof.
  intros Hn. assert (Hc : 0 < qnat n)
    by (unfold qnat, Qlt, inject_Z; cbn [Qnum Qden]; lia).
  destruct (d <? _)%Z eqn:E.
  - apply Qltb_true. apply Qlt_shift_div_r; [exact Hc|]. apply Z.ltb_lt in E.
    unfold qnat, total_seconds, Qlt, Qmult, inject_Z; cbn [Qnum Qden]. lia.
  - apply Qltb_false. apply Qle_shift_div_l; [exact Hc|]. apply Z.ltb_ge in E.
    unfold qnat, total_seconds, Qle, Qmult, inject_Z; cbn [Qnum Qden]. lia.
Qed.

Lemma vdf_scan_spec now ps :
  fst (vdf_scan now ps)
  = map (fun '(k, r) => (k, if vdf_flag now r then set_trust (trust_score r * 0.6) r else r)) ps
  /\ map Event.peer_id (snd (vdf_scan now ps))
     = map fst (filter (fun e => vdf_flag now (snd e)) ps)
  /\ Forall (fun e => Event.event_type e = VDF_MANIPULATION /\ Event.severity e = WARNING)
       (snd (vdf_scan now ps)).
Proof.
  induction ps as [|[pid r] ps IH]; simpl; [split; [reflexivity|split; constructor]|].
  destruct (vdf_scan now ps) as [ps' es]. simpl in IH. destruct IH as [H1 [H2 H3]].
  unfold vdf_flag at 1 3.
  destruct (Nat.ltb 10 (successful_blocks r)) eqn:E10; simpl.
  - apply Nat.ltb_lt in E10. rewrite (vdf_time_code _ _ (Nat.lt_trans 0 10 _ ltac:(lia) E10)).
    destruct (_ <? _)%Z; simpl; rewrite H1; (split; [reflexivity|]).
    + rewrite H2. split; [reflexivity|constructor; [split; reflexivity|exact H3]].
    + split; [exact H2|exact H3].
  - rewrite H1. split; [reflexivity|split; [exact H2|exact H3]].
Qed.

(** [detect_vdf_manipulation] (lines 185-212): a peer is penalised exactly
    when it has more than 10 successes and was first seen less than
    [1700 * successful_blocks] seconds ago (so a peer with at most 10
    successes is never penalised); each penalised peer's trust is
    multiplied by 0.6, every other record is unchanged, and one [WARNING]
    VDF event per penalised peer is appended, in registry order. *)
Theorem vdf_pass_spec (now : Z) (g : SecurityGuardian) :
  peer_reputation (detect_vdf_manipulation now g)
  = map (fun '(k, r) => (k, if vdf_flag now r then set_trust (trust_score r * 0.6) r else r))
      (peer_reputation g)
  /\ exists new, security_events (detect_vdf_manipulation now g) = security_events g ++ new
     /\ map Event.peer_id new = map fst (filter (fun e => vdf_flag now (snd e)) (peer_reputation g))
     /\ Forall (fun e => Event.event_type e = VDF_MANIPULATION /\ Event.severity e = WARNING) new.
Proof.
  destruct (vdf_scan_spec now (peer_reputation g)) as [H1 [H2 H3]].
  unfold detect_vdf_manipulation. destruct (vdf_scan now (peer_reputation g)) as [ps es].
  simpl in *. split; [exact H1|]. exists es. split; [reflexivity|split; assumption].
Qed.

Lemma set_trust_self r : set_trust (trust_score r) r = r.
Proof. destruct r; reflexivity. Qed.

Lemma trust_only_refl ps : Forall2 trust_only ps ps.
Proof.
  induction ps as [|[k r] ps IH]; constructor; [|exact IH].
  split; [reflexivity|]. exists (trust_score r). symmetry. apply set_trust_self.
Qed.

Lemma trust_only_trans ps1 ps2 ps3 :
  Forall2 trust_only ps1 ps2 -> Forall2 trust_only ps2 ps3 -> Forall2 trust_only ps1 ps3.
Proof.
  intros H12. revert ps3. induction H12 as [|a b l1 l2 [Ea [t1 Ta]] H IH]; intros ps3 H23;
    inversion H23 as [|b' c l2' l3 [Eb [t2 Tb]] H']; subst; constructor.
  - split; [congruence|]. exists t2. rewrite Tb, Ta. reflexivity.
  - apply IH, H'.
Qed.

Lemma trust_only_map (c : PeerReputation -> bool) (f : PeerReputation -> Q) ps :
  Forall2 trust_only ps
    (map (fun '(k, r) => (k, if c r then set_trust (f r) r else r)) ps).
Proof.
  induction ps as [|[k r] ps IH]; simpl; constructor; [|exact IH].
  split; [reflexivity|]. destruct (c r); [exists (f r); reflexivity|].
  exists (trust_score r). symmetry. apply set_trust_self.
Qed.

Lemma trust_only_modify (c : Q) pid ps :
  Forall2 trust_only ps (modify pid (fun r => set_trust (trust_score r * c) r) ps).
Proof.
  induction ps as [|[k r] ps IH]; simpl; constructor; [|exact IH].
  split; [destruct (String.eqb pid k); reflexivity|].
  destruct (String.eqb pid k); [exists (trust_score r * c); reflexivity|].
  exists (trust_score r). symmetry. apply set_trust_self.
Qed.

Lemma scale_fold_trust_only (c : Q) (l : list string) (st : SecurityGuardian) :
  Forall2 trust_only (peer_reputation st)
    (peer_reputation (fold_left (fun g pid => scale_trust c pid g) l st)).
Proof.
  revert st. induction l as [|p l IH]; intros st; simpl; [apply trust_only_refl|].
  eapply trust_only_trans; [|apply IH]. apply trust_only_modify.
Qed.

Lemma sybil_trust_only now g :
  Forall2 trust_only (peer_reputation g) (peer_reputation (detect_sybil_attacks now g)).
Proof.
  unfold detect_sybil_attacks. generalize (ip_to_peers g). intros l.
  revert g. induction l as [|[ip peers] l IH]; intros g; simpl; [apply trust_only_refl|].
  eapply trust_only_trans; [|apply IH]. unfold sybil_step.
  match goal with |- context [if ?c then _ else _] => destruct c end;
    [|apply trust_only_refl].
  match goal with |- context [fold_left _ ?l0 ?st] =>
    change (peer_reputation g) with (peer_reputation st); apply scale_fold_trust_only
  end.
Qed.

Lemma reputation_update_set_trust now r t :
  blocked r = false -> (0 < successful_blocks r + failed_validations r)%nat ->
  reputation_update now (set_trust t r) = reputation_update now r.
Proof.
  intros Hb Hn. apply Nat.ltb_lt in Hn.
  destruct r; simpl in *. unfold reputation_update; simpl. rewrite Hb, Hn. reflexivity.
Qed.

Lemma update_trust_only now ps ps' :
  Forall2 trust_only ps ps' ->
  (forall k r, In (k, r) ps ->
     blocked r = false /\ (0 < successful_blocks r + failed_validations r)%nat) ->
  map (fun '(pid, r) => (pid, reputation_update now r)) ps'
  = map (fun '(pid, r) => (pid, reputation_update now r)) ps.
Proof.
  induction 1 as [|[k r] [k' r'] l l' [E [t T]] _ IH]; intros Hall; simpl; [reflexivity|].
  simpl in E, T. subst k' r'. destruct (Hall k r (or_introl eq_refl)) as [Hb Hn].
  rewrite (reputation_update_set_trust now r t Hb Hn), IH; [reflexivity|].
  intros k0 r0 Hin. apply (Hall k0). right. exact Hin.
Qed.

(** One [monitor_network] cycle (lines 86-101): for a registry in which
    every peer is unblocked and has at least one recorded success or
    failure, the Sybil, eclipse and VDF trust penalties of the cycle are
    overwritten by the reputation recompute that follows them
    (lines 229-235 do not read the previous trust score): the registry
    after the cycle is the one the recompute alone produces. *)
Theorem cycle_penalties_erased (now : Z) (g : SecurityGuardian) :
  (forall k r, In (k, r) (peer_reputation g) ->
     blocked r = false /\ (0 < successful_blocks r + failed_validations r)%nat) ->
  peer_reputation (security_cycle now g) = peer_reputation (update_peer_reputation now g).
Proof.
  intros Hall. unfold security_cycle. simpl.
  apply update_trust_only; [|exact Hall].
  eapply trust_only_trans; [|rewrite vdf_peers, (proj1 (vdf_scan_spec now _)); apply trust_only_map].
  eapply trust_only_trans; [|rewrite eclipse_peers, (proj1 (eclipse_scan_spec now _)); apply trust_only_map].
  eapply trust_only_trans; [|apply sybil_trust_only].
  unfold detect_dos_attacks. rewrite dos_fold_peers. apply trust_only_refl.
Qed.

Lemma idle_code (d : Z) :
  Qltb 24 (total_seconds d / 3600) = (86400 * 1000000 <? d)%Z.
Proof.
  destruct (_ <? d)%Z eqn:E.
  - apply Qltb_true. apply Qlt_shift_div_l; [reflexivity|]. apply Z.ltb_lt in E.
    unfold total_seconds, Qlt, Qmult; cbn [Qnum Qden]. lia.
  - apply Qltb_false. apply Qle_shift_div_r; [reflexivity|]. apply Z.ltb_ge in E.
    unfold total_seconds, Qle, Qmult; cbn [Qnum Qden]. lia.
Qed.

Lemma idle_step now r :
  blocked r = false -> (successful_blocks r + failed_validations r = 0)%nat ->
  reputation_update now r
  = if (86400 * 1000000 <? now - last_seen r)%Z
    then set_trust (trust_score r * 0.9) r else r.
Proof.
  intros Hb Hn. unfold reputation_update. rewrite Hb. cbv zeta. rewrite Hn.
  change (Nat.ltb 0 0) with false. cbv iota. rewrite idle_code.
  destruct (_ <? _)%Z; [reflexivity|apply set_trust_self].
Qed.

Lemma update_fold_lookup (nows : list Z) pid g :
  lookup pid (peer_reputation (fold_left (fun g t => update_peer_reputation t g) nows g))
  = option_map (fun r => fold_left (fun acc t => reputation_update t acc) nows r)
      (lookup pid (peer_reputation g)).
Proof.
  revert g. induction nows as [|t nows IH]; intros g; simpl.
  - destruct (lookup pid (peer_reputation g)); reflexivity.
  - rewrite IH. simpl. rewrite (lookup_map_vals pid (reputation_update t)).
    destruct (lookup pid (peer_reputation g)); reflexivity.
Qed.

(** [update_peer_reputation] (lines 214-240), applied once per cycle at
    the times [nows]: for an unblocked registered peer with no recorded
    success or failure, the recompute keeps the previous trust score, and
    [last_seen] is never refreshed by it; so if every cycle comes more
    than 24 hours after [last_seen], the trust score is multiplied by 0.9
    at every cycle ([0.9 ^ k] after [k] cycles, with every other field
    unchanged), and if every cycle comes within 24 hours of it, the record
    is left exactly as it was. *)
Theorem idle_decay_compounds (nows : list Z) (g : SecurityGuardian) (pid : string)
  (r : PeerReputation) :
  lookup pid (peer_reputation g) = Some r ->
  blocked r = false -> (successful_blocks r + failed_validations r = 0)%nat ->
  (Forall (fun t => (86400 * 1000000 < t - last_seen r)%Z) nows ->
     exists r', lookup pid (peer_reputation
                  (fold_left (fun g t => update_peer_reputation t g) nows g)) = Some r'
       /\ r' = set_trust (trust_score r') r
       /\ trust_score r' == trust_score r * qpow (9 # 10) (length nows))
  /\ (Forall (fun t => (t - last_seen r <= 86400 * 1000000)%Z) nows ->
     lookup pid (peer_reputation
       (fold_left (fun g t => update_peer_reputation t g) nows g)) = Some r).
Proof.
  intros Hl Hb Hn. rewrite update_fold_lookup, Hl. simpl. split.
  - intros Hall. eexists. split; [reflexivity|].
    clear Hl. revert r Hb Hn Hall.
    induction nows as [|t nows IH]; intros r Hb Hn Hall; simpl.
    + split; [symmetry; apply set_trust_self|]. ring.
    + inversion Hall as [|? ? Ht Hall']; subst.
      rewrite (idle_step t r Hb Hn).
      destruct (_ <? _)%Z eqn:E; [|apply Z.ltb_ge in E; lia].
      destruct (IH (set_trust (trust_score r * 0.9) r) Hb Hn Hall') as [H1 H2].
      split.
      * rewrite H1 at 1. reflexivity.
      * rewrite H2. simpl. ring.
  - intros Hall. clear Hl. induction Hall as [|t nows Ht Hall IH]; simpl; [reflexivity|].
    rewrite (idle_step t r Hb Hn).
    destruct (_ <? _)%Z eqn:E; [apply Z.ltb_lt in E; lia|exact IH].
Qed.


End GuardianPasses.

(* ------------------------------------------------------------------ *)
(** ** Recording, averages, the health window and the optimisation cycle *)

Section BoosterOps.
Import Booster Inputs.







Lemma monitor_shape (now : Z) (b : NetworkBooster) :
  length (metrics_history (monitor_network_health now b))
  = Nat.min (S (length (metrics_history b))) 100
  /\ monitor_network_health now b
     = set_history b (metrics_history (monitor_network_health now b)).
Proof.
  unfold monitor_network_health.
  match goal with |- context [Nat.ltb 100 (length ?h)] =>
    destruct (Nat.ltb 100 (length h)) eqn:E end; simpl.
  - apply Nat.ltb_lt in E. rewrite length_app in E. simpl in E.
    split; [|reflexivity]. rewrite length_last_n; [lia|rewrite length_app; simpl; lia].
  - apply Nat.ltb_ge in E. rewrite length_app in E. simpl in E.
    split; [|reflexivity]. rewrite length_app. simpl. lia.
Qed.

(** [monitor_network_health] (lines 76-102): the history becomes the
    last [min (n + 1, 100)] items of the old history followed by the new
    snapshot, which records the current time, the number of peers with a
    latency sample, the total bandwidth and the average latency; nothing
    else of the booster changes. *)
Theorem monitor_history_window (now : Z) (b : NetworkBooster) :
  let b' := monitor_network_health now b in
  length (metrics_history b') = Nat.min (S (length (metrics_history b))) 100
  /\ (exists dropped, metrics_history b ++ [health_snapshot now b]
                      = dropped ++ metrics_history b')
  /\ (exists kept, metrics_history b' = kept ++ [health_snapshot now b])
  /\ timestamp (health_snapshot now b) = now
  /\ connected_peers (health_snapshot now b) = length (peer_latencies b)
  /\ total_bandwidth_mbps (health_snapshot now b) = calculate_bandwidth b
  /\ avg_latency_ms (health_snapshot now b) = calculate_avg_latency b
  /\ b' = set_history b (metrics_history b').
Proof.
  cbv zeta. unfold monitor_network_health. fold (health_snapshot now b).
  set (m := health_snapshot now b). set (h := metrics_history b).
  destruct (Nat.ltb 100 (length (h ++ [m]))) eqn:E; simpl.
  - apply Nat.ltb_lt in E. rewrite length_app in E. simpl in E.
    split; [rewrite length_last_n; [lia|rewrite length_app; simpl; lia]|].
    split; [exists (firstn (length (h ++ [m]) - 100) (h ++ [m])); unfold last_n;
            symmetry; apply firstn_skipn|].
    split; [exact (last_n_snoc 100 h m ltac:(lia))|].
    repeat split; reflexivity.
  - apply Nat.ltb_ge in E. rewrite length_app in E. simpl in E.
    split; [rewrite length_app; simpl; lia|].
    split; [exists []; reflexivity|].
    split; [exists h; reflexivity|].
    repeat split; reflexivity.
Qed.

Lemma in_assign_pair {V} (p k : string) (w v : V) (d : list (string * V)) :
  In (k, v) (assign p w d) -> In (k, v) d \/ (k, v) = (p, w).
Proof.
  induction d as [|[k' v'] r IH]; simpl.
  - intros [E|[]]. auto.
  - destruct (String.eqb p k') eqn:Ep; simpl.
    + apply String.eqb_eq in Ep. subst. intros [E|H]; [inversion E; auto|auto].
    + intros [E|H]; [auto|]. destruct (IH H); auto.
Qed.

Lemma dict_of_list_incl (l : list (string * Q)) : incl (dict_of_list l) l.
Proof.
  unfold dict_of_list.
  assert (H : forall d, incl (fold_left (fun d '(k, v) => assign k v d) l d) (d ++ l)).
  { induction l as [|[k v] l IH]; intros d e Hin; simpl in *.
    - rewrite app_nil_r. exact Hin.
    - destruct e as [k0 v0]. apply IH in Hin. apply in_app_or in Hin.
      destruct Hin as [Hin|Hin].
      + destruct (in_assign_pair _ _ _ _ _ Hin) as [H|H].
        * apply in_or_app. left. exact H.
        * rewrite H. apply in_or_app. right. left. reflexivity.
      + apply in_or_app. right. right. exact Hin. }
  intros e Hin. exact (H [] e Hin).
Qed.

Lemma take_z_incl {A} (k : Z) (l : list A) : incl (take_z k l) l.
Proof.
  unfold take_z. destruct (0 <=? k)%Z; intros e Hin;
    [rewrite <- (firstn_skipn (Z.to_nat k) l)
    |rewrite <- (firstn_skipn (length l - Z.to_nat (- k)) l)];
    apply in_or_app; left; exact Hin.
Qed.

Lemma optimize_cases (b : NetworkBooster) :
  optimize_peer_connections b = b
  \/ optimize_peer_connections b
     = set_latencies b (dict_of_list (take_z (max_outbound b)
                          (sort_by_latency (peer_latencies b)))).
Proof.
  unfold optimize_peer_connections, prune_poor_performers.
  destruct (Qltb _ (_ * 0.8)); [auto|]. cbv zeta.
  destruct (Qltb _ _); [|auto].
  destruct (_ <=? _)%Z; auto.
Qed.

Lemma optimize_incl (b : NetworkBooster) :
  incl (peer_latencies (optimize_peer_connections b)) (peer_latencies b)
  /\ optimize_peer_connections b
     = set_latencies b (peer_latencies (optimize_peer_connections b)).
Proof.
  destruct (optimize_cases b) as [E|E]; rewrite E.
  - split; [apply incl_refl|destruct b; reflexivity].
  - split; [|reflexivity]. simpl.
    intros e Hin. apply dict_of_list_incl, take_z_incl in Hin.
    exact (Permutation_in _ (sort_perm _) Hin).
Qed.

(** [optimize_peer_connections] with [prune_poor_performers] (lines
    104-125 and 226-238): the pass only ever removes latency entries, it
    never adds one or changes a recorded latency, and it touches no other
    attribute; nothing is removed unless the peer count exceeds 90% of
    [max_peers] and [max_outbound]. *)
Theorem optimize_only_removes (b : NetworkBooster) :
  incl (peer_latencies (optimize_peer_connections b)) (peer_latencies b)
  /\ optimize_peer_connections b
     = set_latencies b (peer_latencies (optimize_peer_connections b))
  /\ (qnat (length (peer_latencies b)) <= inject_Z (max_peers b) * 0.9 ->
      optimize_peer_connections b = b)
  /\ ((Z.of_nat (length (peer_latencies b)) <= max_outbound b)%Z ->
      optimize_peer_connections b = b).
Proof.
  destruct (optimize_incl b) as [H1 H2]. split; [exact H1|split; [exact H2|split]].
  - intros Hle. unfold optimize_peer_connections.
    destruct (Qltb _ (_ * 0.8)); [reflexivity|]. cbv zeta.
    replace (Qltb _ _) with false; [reflexivity|].
    symmetry. apply Qltb_false. exact Hle.
  - intros Hle. unfold optimize_peer_connections, prune_poor_performers.
    destruct (Qltb _ (_ * 0.8)); [reflexivity|]. cbv zeta.
    destruct (Qltb _ _); [|reflexivity].
    replace (_ <=? _)%Z with true; [reflexivity|]. symmetry. apply Z.leb_le. exact Hle.
Qed.

Lemma length_sort (l : list (string * Q)) : length (sort_by_latency l) = length l.
Proof. exact (Permutation_length (sort_perm l)). Qed.

Lemma nodup_firstn {A} (k : nat) (l : list A) : NoDup l -> NoDup (firstn k l).
Proof.
  intros H. rewrite <- (firstn_skipn k l) in H. exact (NoDup_app_remove_r _ _ H).
Qed.

(** [prune_poor_performers] reached from [optimize_peer_connections]
    with a negative [max_outbound] (line 233 slices
    [sorted_peers[:max_outbound]]): instead of keeping no peer, Python's
    negative slice keeps all peers but the [-max_outbound] slowest ones. *)
Theorem prune_negative_outbound (b : NetworkBooster) :
  NoDup (map fst (peer_latencies b)) ->
  (max_outbound b < 0)%Z ->
  inject_Z (max_peers b) * 0.9 < qnat (length (peer_latencies b)) ->
  peer_latencies (optimize_peer_connections b)
  = firstn (length (peer_latencies b) - Z.to_nat (- max_outbound b))
      (sort_by_latency (peer_latencies b))
  /\ length (peer_latencies (optimize_peer_connections b))
     = (length (peer_latencies b) - Z.to_nat (- max_outbound b))%nat.
Proof.
  intros Hnd Hneg H9. unfold optimize_peer_connections.
  set (n := qnat (length (peer_latencies b))) in *.
  set (m := inject_Z (max_peers b)) in *.
  assert (Hn : 0 <= n) by (unfold n, qnat; change 0 with (inject_Z 0);
                           rewrite <- Zle_Qle; lia).
  assert (E8 : Qltb n (m * 0.8) = false).
  { apply Qltb_false. destruct (Qlt_le_dec m 0); nra. }
  assert (E9 : Qltb (m * 0.9) n = true) by (apply Qltb_true; exact H9).
  rewrite E8. cbv zeta. rewrite E9. unfold prune_poor_performers.
  replace (_ <=? max_outbound b)%Z with false by (symmetry; apply Z.leb_gt; lia).
  unfold take_z. replace (0 <=? max_outbound b)%Z with false by (symmetry; apply Z.leb_gt; lia).
  unfold set_latencies. cbn [peer_latencies]. rewrite length_sort, dict_of_list_nodup.
  - split; [reflexivity|]. rewrite length_firstn, length_sort. lia.
  - rewrite <- firstn_map. apply nodup_firstn.
    apply (Permutation_NoDup (Permutation_map fst (Permutation_sym (sort_perm _)))).
    exact Hnd.
Qed.

Lemma detect_congestion_fields (b : NetworkBooster) :
  detect_congestion b = set_congestion b (congestion_detected (detect_congestion b)).
Proof.
  unfold detect_congestion.
  destruct (Nat.ltb _ 5); [destruct b; reflexivity|]. cbv zeta.
  destruct (Qltb 500 _); [reflexivity|]. destruct (Qltb _ 200); [reflexivity|].
  destruct b; reflexivity.
Qed.

(** [optimize_network] (lines 50-74), run for any number of iterations:
    the history never holds more than 100 snapshots, the latency table
    only loses entries (every entry left is one recorded before, with its
    latency), and the throughput table and the configured limits are
    never changed. *)
Theorem booster_cycles_invariants (nows : list Z) (b : NetworkBooster) :
  (length (metrics_history b) <= 100)%nat ->
  (length (metrics_history (fold_left (fun b t => booster_cycle t b) nows b)) <= 100)%nat
  /\ incl (peer_latencies (fold_left (fun b t => booster_cycle t b) nows b)) (peer_latencies b)
  /\ throughput_stats (fold_left (fun b t => booster_cycle t b) nows b) = throughput_stats b
  /\ max_peers (fold_left (fun b t => booster_cycle t b) nows b) = max_peers b
  /\ max_outbound (fold_left (fun b t => booster_cycle t b) nows b) = max_outbound b
  /\ max_inbound (fold_left (fun b t => booster_cycle t b) nows b) = max_inbound b.
Proof.
  revert b. induction nows as [|t nows IH]; intros b Hh; simpl.
  - repeat split; [exact Hh|apply incl_refl].
  - set (b1 := booster_cycle t b).
    assert (E : b1 = set_congestion
                      (set_latencies (monitor_network_health t b)
                         (peer_latencies (optimize_peer_connections (monitor_network_health t b))))
                      (congestion_detected b1)).
    { unfold b1, booster_cycle. rewrite detect_congestion_fields at 1.
      rewrite (proj2 (optimize_incl (monitor_network_health t b))) at 1.
      reflexivity. }
    destruct (monitor_shape t b) as [Hlen Hm].
    assert (Hh1 : (length (metrics_history b1) <= 100)%nat)
      by (rewrite E; unfold set_congestion, set_latencies; cbn [metrics_history];
          rewrite Hlen; lia).
    assert (F : incl (peer_latencies b1) (peer_latencies b)
                /\ throughput_stats b1 = throughput_stats b
                /\ max_peers b1 = max_peers b /\ max_outbound b1 = max_outbound b
                /\ max_inbound b1 = max_inbound b).
    { rewrite E. unfold set_congestion, set_latencies.
      cbn [peer_latencies throughput_stats max_peers max_outbound max_inbound].
      pose proof (proj1 (optimize_incl (monitor_network_health t b))) as Hi.
      rewrite Hm in Hi |- *. unfold set_history in Hi |- *.
      cbn [peer_latencies throughput_stats max_peers max_outbound max_inbound] in Hi |- *.
      repeat split; [exact Hi]. }
    destruct F as [F2 [F3 [F4 [F5 F6]]]].
    destruct (IH b1 Hh1) as [I1 [I2 [I3 [I4 [I5 I6]]]]].
    split; [exact I1|split; [exact (incl_tran I2 F2)|]].
    repeat split; congruence.
Qed.

End BoosterOps.

(* ------------------------------------------------------------------ *)
(** ** Witnesses: the theorems applied at concrete inputs *)

Lemma reputation_recompute_formula_witness :
  lookup "p"%string (Guardian.peer_reputation Inputs.guardian_dos5) = Some Inputs.peer_dos5
  /\ Guardian.blocked Inputs.peer_dos5 = false
  /\ (0 < Guardian.successful_blocks Inputs.peer_dos5
          + Guardian.failed_validations Inputs.peer_dos5)%nat
  /\ exists r', lookup "p"%string (Guardian.peer_reputation
                   (Guardian.update_peer_reputation 0 Inputs.guardian_dos5)) = Some r'
              /\ Guardian.trust_score r' == Inputs.code_trust 0 Inputs.peer_dos5.
Proof.
  split; [reflexivity|split; [reflexivity|split; [simpl; lia|]]].
  apply (reputation_recompute_formula 0 Inputs.guardian_dos5 "p"%string Inputs.peer_dos5);
    [reflexivity|reflexivity|simpl; lia].
Defined.

Lemma trust_score_in_range_witness :
  Inputs.trust_ok (Guardian.run_ops (Guardian.new_SecurityGuardian 100 0.6 60)
                     [Guardian.OpRegister 0 "p" "10.0.0.1"; Guardian.OpFailure "p";
                      Guardian.OpCycle 10000000])
  /\ option_map Guardian.trust_score
       (lookup "p"%string (Guardian.peer_reputation
          (Guardian.register_peer 0 "p" "10.0.0.1" (Guardian.new_SecurityGuardian 100 0.6 60))))
     = Some 0.5.
Proof.
  destruct (trust_score_in_range 100 0.6 60
              [Guardian.OpRegister 0 "p" "10.0.0.1"; Guardian.OpFailure "p";
               Guardian.OpCycle 10000000]) as [H1 H2].
  split; [exact H1|]. apply H2. reflexivity.
Defined.

Lemma dos_detection_threshold_witness :
  Guardian.dos_threshold Inputs.guardian_flood = 100%Z
  /\ (101 <= length (filter (Inputs.in_window 0) (repeat 0%Z 101)))%nat
  /\ In "1.2.3.4"%string (Guardian.blocked_ips (Guardian.detect_dos_attacks 0 Inputs.guardian_flood))
  /\ exists new e,
       Guardian.security_events (Guardian.detect_dos_attacks 0 Inputs.guardian_flood)
       = Guardian.security_events Inputs.guardian_flood ++ new
       /\ filter (Inputs.dos_event_for "1.2.3.4") new = [e]
       /\ Guardian.Event.event_type e = Guardian.DOS
       /\ Guardian.Event.severity e = Guardian.CRITICAL.
Proof.
  split; [reflexivity|split; [vm_compute; lia|]].
  apply (proj1 (dos_detection_threshold 0 Inputs.guardian_flood "1.2.3.4"%string
                  (repeat 0%Z 101) eq_refl
                  (NoDup_cons _ (fun H : In _ [] => H) (NoDup_nil _)) eq_refl)).
  vm_compute; lia.
Defined.

Lemma detect_congestion_hysteresis_witness :
  Booster.congestion_detected (Booster.detect_congestion (Inputs.booster_after 600 false)) = true
  /\ Booster.congestion_detected (Booster.detect_congestion (Inputs.booster_after 150 true)) = false
  /\ Booster.detect_congestion (Inputs.booster_after 300 true) = Inputs.booster_after 300 true
  /\ Booster.detect_congestion (Inputs.booster_after 300 false) = Inputs.booster_after 300 false.
Proof.
  split; [|split; [|split]].
  - apply (proj2 (detect_congestion_hysteresis (Inputs.booster_after 600 false)));
      [simpl; lia|vm_compute; reflexivity].
  - apply (proj2 (detect_congestion_hysteresis (Inputs.booster_after 150 true)));
      [simpl; lia|vm_compute; reflexivity].
  - apply (proj2 (detect_congestion_hysteresis (Inputs.booster_after 300 true)));
      [simpl; lia|split; vm_compute; discriminate].
  - apply (proj2 (detect_congestion_hysteresis (Inputs.booster_after 300 false)));
      [simpl; lia|split; vm_compute; discriminate].
Defined.

Lemma record_failed_validation_effect_witness :
  lookup "p"%string (Guardian.peer_reputation
    (Guardian.record_failed_validation "p" Inputs.guardian_dos5))
  = Some (Guardian.mkPeerReputation "p" "10.0.0.1" (0.5 * 0.8) 1 1 5 0 0 0 false "" None).
Proof.
  apply (proj1 (record_failed_validation_effect Inputs.guardian_dos5 "p"%string
                  Inputs.peer_dos5 eq_refl)).
Defined.

Lemma block_propagation_policy_witness :
  Booster.optimize_block_propagation (Inputs.booster_after 600 true) 1
  = Booster.optimize_block_propagation (Inputs.booster_after 150 true) 2000
  /\ Booster.optimize_block_propagation (Inputs.booster_after 600 true) 1
     = Booster.mkPropagation true 10 "critical_only" true.
Proof.
  apply (block_propagation_policy (Inputs.booster_after 600 true)
           (Inputs.booster_after 150 true) 1 2000 eq_refl).
Defined.

Lemma averages_without_samples_witness :
  Booster.calculate_avg_latency (Booster.new_NetworkBooster 50 25 25) = 0
  /\ Booster.calculate_avg_throughput (Booster.new_NetworkBooster 50 25 25) = 0
  /\ exists h m,
       Booster.metrics_history
         (Booster.monitor_network_health 0 (Booster.new_NetworkBooster 50 25 25)) = h ++ [m]
       /\ Booster.connected_peers m = 0%nat /\ Booster.avg_latency_ms m = 0.
Proof.
  destruct (averages_without_samples (Booster.new_NetworkBooster 50 25 25) 0)
    as [H1 [H2 H3]].
  split; [apply H1; reflexivity|split; [apply H2; reflexivity|apply H3; reflexivity]].
Defined.

Lemma prune_keeps_lowest_latency_witness :
  NoDup (map fst (Booster.peer_latencies Inputs.booster_30))
  /\ length (Booster.peer_latencies (Booster.optimize_peer_connections Inputs.booster_30)) = 25%nat
  /\ (forall p q,
        In p (Booster.peer_latencies (Booster.optimize_peer_connections Inputs.booster_30)) ->
        In q (Booster.peer_latencies Inputs.booster_30) ->
        ~ In q (Booster.peer_latencies (Booster.optimize_peer_connections Inputs.booster_30)) ->
        Inputs.ranks_before (Booster.peer_latencies Inputs.booster_30) p q)
  /\ Booster.peer_latencies (Booster.optimize_peer_connections Inputs.booster_30)
     = map (fun i => (str_nat i, qnat (30 - i))) (rev (seq 5 25)).
Proof.
  assert (Hnd : NoDup (map fst (Booster.peer_latencies Inputs.booster_30))).
  { vm_compute. repeat (constructor; [simpl; intuition discriminate|]). constructor. }
  destruct (prune_keeps_lowest_latency Inputs.booster_30 Hnd)
    as [Hlen [_ Hrank]]; [vm_compute; discriminate|vm_compute; reflexivity|
                          vm_compute; reflexivity|].
  split; [exact Hnd|split; [exact Hlen|split; [exact Hrank|]]].
  vm_compute. reflexivity.
Defined.

Lemma sybil_detection_threshold_witness :
  (NoDup (map fst (Guardian.peer_reputation Inputs.guardian_sybil5))
   /\ (5 <= length (Inputs.suspicious_at Inputs.guardian_sybil5 "10.0.0.1"))%nat
   /\ (exists new e,
         Guardian.security_events (Guardian.detect_sybil_attacks 7 Inputs.guardian_sybil5)
         = Guardian.security_events Inputs.guardian_sybil5 ++ new
         /\ filter (Inputs.sybil_event_for "10.0.0.1") new = [e]
         /\ Guardian.Event.severity e = Guardian.WARNING /\ Guardian.Event.event_type e = Guardian.SYBIL))
  /\ (NoDup (map fst (Guardian.peer_reputation Inputs.guardian_sybil4))
      /\ (length (Inputs.suspicious_at Inputs.guardian_sybil4 "10.0.0.1") < 5)%nat
      /\ exists new,
           Guardian.security_events (Guardian.detect_sybil_attacks 7 Inputs.guardian_sybil4)
           = Guardian.security_events Inputs.guardian_sybil4 ++ new
           /\ filter (Inputs.sybil_event_for "10.0.0.1") new = []).
Proof.
  assert (N5 : NoDup (map fst (Guardian.peer_reputation Inputs.guardian_sybil5)))
    by (vm_compute; repeat constructor; simpl; intuition discriminate).
  assert (N4 : NoDup (map fst (Guardian.peer_reputation Inputs.guardian_sybil4)))
    by (vm_compute; repeat constructor; simpl; intuition discriminate).
  assert (L5 : (5 <= length (Inputs.suspicious_at Inputs.guardian_sybil5 "10.0.0.1"))%nat)
    by (vm_compute; lia).
  assert (L4 : (length (Inputs.suspicious_at Inputs.guardian_sybil4 "10.0.0.1") < 5)%nat)
    by (vm_compute; lia).
  split; (split; [assumption|split; [assumption|]]).
  - exact (proj1 (proj1 (sybil_detection_threshold 7 _ "10.0.0.1" N5) L5)).
  - exact (proj1 (proj2 (sybil_detection_threshold 7 _ "10.0.0.1" N4) L4)).
Defined.

Lemma validation_records_and_trust_witness :
  Inputs.trust_ok Inputs.guardian_dos5
  /\ Guardian.is_peer_trusted "p" (Guardian.record_successful_block 3 "p" Inputs.guardian_dos5)
     = Guardian.is_peer_trusted "p" Inputs.guardian_dos5
  /\ (Guardian.is_peer_trusted "p" (Guardian.record_failed_validation "p" Inputs.guardian_dos5)
      = true -> Guardian.is_peer_trusted "p" Inputs.guardian_dos5 = true).
Proof.
  assert (H : Inputs.trust_ok Inputs.guardian_dos5).
  { intros k r [E|[]]. inversion E; subst. split; unfold Qle; simpl; lia. }
  split; [exact H|exact (validation_records_and_trust 3 "p" "p" _ H)].
Defined.

Lemma dos_pass_prunes_attempts_witness :
  NoDup (map fst (Guardian.connection_attempts Inputs.guardian_flood))
  /\ Guardian.connection_attempts
       (Guardian.detect_dos_attacks (61 * 1000000) Inputs.guardian_flood)
     = [("1.2.3.4"%string, [])].
Proof.
  assert (H : NoDup (map fst (Guardian.connection_attempts Inputs.guardian_flood)))
    by (simpl; repeat constructor; intros []).
  split; [exact H|]. rewrite (dos_pass_prunes_attempts _ _ H). vm_compute. reflexivity.
Defined.


Lemma cycle_penalties_erased_witness :
  (forall k r, In (k, r) (Guardian.peer_reputation Inputs.guardian_eclipse) ->
     Guardian.blocked r = false
     /\ (0 < Guardian.successful_blocks r + Guardian.failed_validations r)%nat)
  /\ Inputs.eclipse_flag (Guardian.mkPeerReputation "e" "10.0.0.3" 0.5 1001 0 0 0 0 0 false "" None)
     = true
  /\ Inputs.vdf_flag 0 (Guardian.mkPeerReputation "e" "10.0.0.3" 0.5 1001 0 0 0 0 0 false "" None)
     = true
  /\ Guardian.peer_reputation (Guardian.security_cycle 0 Inputs.guardian_eclipse)
     = Guardian.peer_reputation (Guardian.update_peer_reputation 0 Inputs.guardian_eclipse).
Proof.
  assert (H : forall k r, In (k, r) (Guardian.peer_reputation Inputs.guardian_eclipse) ->
     Guardian.blocked r = false
     /\ (0 < Guardian.successful_blocks r + Guardian.failed_validations r)%nat).
  { intros k r [E|[]]. inversion E; subst. simpl. split; [reflexivity|lia]. }
  split; [exact H|split; [vm_compute; reflexivity|split; [vm_compute; reflexivity|]]].
  exact (cycle_penalties_erased 0 _ H).
Defined.

Lemma idle_decay_compounds_witness :
  lookup "p" (Guardian.peer_reputation Inputs.guardian_idle)
    = Some (Guardian.new_PeerReputation 0 "p" "10.0.0.1")
  /\ Guardian.blocked (Guardian.new_PeerReputation 0 "p" "10.0.0.1") = false
  /\ (Guardian.successful_blocks (Guardian.new_PeerReputation 0 "p" "10.0.0.1")
      + Guardian.failed_validations (Guardian.new_PeerReputation 0 "p" "10.0.0.1") = 0)%nat
  /\ (exists r', lookup "p" (Guardian.peer_reputation
         (fold_left (fun g t => Guardian.update_peer_reputation t g)
            [2 * 86400 * 1000000; 3 * 86400 * 1000000]%Z Inputs.guardian_idle)) = Some r'
       /\ Guardian.trust_score r' == 81 # 200)
  /\ lookup "p" (Guardian.peer_reputation
       (fold_left (fun g t => Guardian.update_peer_reputation t g)
          [3600 * 1000000; 7200 * 1000000]%Z Inputs.guardian_idle))
     = Some (Guardian.new_PeerReputation 0 "p" "10.0.0.1").
Proof.
  assert (H1 : lookup "p" (Guardian.peer_reputation Inputs.guardian_idle)
               = Some (Guardian.new_PeerReputation 0 "p" "10.0.0.1"))
    by (vm_compute; reflexivity).
  pose proof (idle_decay_compounds [2 * 86400 * 1000000; 3 * 86400 * 1000000]%Z
                _ _ _ H1 eq_refl eq_refl) as [Ha _].
  pose proof (idle_decay_compounds [3600 * 1000000; 7200 * 1000000]%Z
                _ _ _ H1 eq_refl eq_refl) as [_ Hb].
  split; [exact H1|split; [reflexivity|split; [reflexivity|split]]].
  - destruct Ha as [r' [Hl [_ Ht]]]; [repeat constructor|].
    exists r'. split; [exact Hl|]. eapply Qeq_trans; [exact Ht|]. vm_compute. reflexivity.
  - apply Hb. repeat constructor; discriminate.
Defined.


Lemma prune_negative_outbound_witness :
  NoDup (map fst (Booster.peer_latencies Inputs.booster_neg))
  /\ (Booster.max_outbound Inputs.booster_neg < 0)%Z
  /\ inject_Z (Booster.max_peers Inputs.booster_neg) * 0.9
     < qnat (length (Booster.peer_latencies Inputs.booster_neg))
  /\ Booster.peer_latencies (Booster.optimize_peer_connections Inputs.booster_neg)
     = [("a"%string, 10); ("c"%string, 20)].
Proof.
  assert (N : NoDup (map fst (Booster.peer_latencies Inputs.booster_neg)))
    by (vm_compute; repeat constructor; simpl; intuition discriminate).
  assert (Hm : (Booster.max_outbound Inputs.booster_neg < 0)%Z) by (vm_compute; reflexivity).
  assert (H9 : inject_Z (Booster.max_peers Inputs.booster_neg) * 0.9
               < qnat (length (Booster.peer_latencies Inputs.booster_neg)))
    by (vm_compute; reflexivity).
  split; [exact N|split; [exact Hm|split; [exact H9|]]].
  rewrite (proj1 (prune_negative_outbound _ N Hm H9)). vm_compute. reflexivity.
Defined.

Lemma booster_cycles_invariants_witness :
  (length (Booster.metrics_history (Booster.new_NetworkBooster 50 25 25)) <= 100)%nat
  /\ (length (Booster.metrics_history
        (fold_left (fun b t => Booster.booster_cycle t b) (map Z.of_nat (seq 0 120))
           (Booster.new_NetworkBooster 50 25 25))) <= 100)%nat.
Proof.
  assert (H : (length (Booster.metrics_history (Booster.new_NetworkBooster 50 25 25)) <= 100)%nat)
    by (simpl; lia).
  split; [exact H|exact (proj1 (booster_cycles_invariants _ _ H))].
Defined.
